(** * Gift: an extensible type-system interface (types/BaseType.cpp)

    A shallow embedding of [GiftedBaseType] (the capability contract with
    its default derived comparators and its default [VectorizedEqual]) and
    of [GiftedIntegerType] (the one concrete variant), together with the
    properties the design document states about them.

    Modelling conventions.
    - [std::uint64_t] is a [Z] kept in [0, 2^64); every arithmetic
      operation writes its wrap-around out.  [std::size_t] is an [N], with
      the wrap-around of [i * elementLength] written out.
    - A [const char*] is the list of bytes readable from the pointer on;
      pointer arithmetic drops a prefix.  A read past the end of the
      readable bytes has no defined behaviour: it is [None].  Alignment is
      not tracked.
    - A [bool&] output parameter is passed in and returned.
    - Objects that are mutated through pointers live in a store
      ([gmap positive GiftedObject]); methods are first given on values and then
      lifted to the store, where receiver and operand may be one object. *)

From Stdlib Require Import ZArith List Lia.
From Stdlib Require Import Strings.Byte.
From stdpp Require Import base option list gmap fin_maps.

Local Open Scope Z_scope.

(** ** Machine integers *)

Definition uint64_modulus : Z := 2 ^ 64.

(** Arithmetic on [std::uint64_t] is modulo 2^64. *)
Definition uint64_wrap (z : Z) : Z := z mod uint64_modulus.

Definition is_uint64 (z : Z) : Prop := 0 <= z < uint64_modulus.

Definition size_t_modulus : N := (2 ^ 64)%N.

(** Arithmetic on [std::size_t] is modulo 2^64 as well. *)
Definition size_t_wrap (n : N) : N := (n mod size_t_modulus)%N.

(** ** Bytes in memory and the host's byte order *)

Inductive ByteOrder : Type := LittleEndian | BigEndian.

(** The platform the program runs on fixes how a multi-byte object is laid
    out; the source never names it (it only reinterprets pointers). *)
Class Host : Type := host_order : ByteOrder.

Definition byte_val (b : byte) : Z := Z.of_N (Byte.to_N b).

Definition byte_of_Z (z : Z) : byte :=
  match Byte.of_N (Z.to_N (Z.land z 255)) with
  | Some b => b
  | None => x00
  end.

(** The unsigned integer held by a run of bytes whose first byte is the
    most significant one. *)
Definition combine_msb_first (bs : list byte) : Z :=
  fold_left (fun acc b => Z.lor (Z.shiftl acc 8) (byte_val b)) bs 0.

Definition combine_bytes (order : ByteOrder) (bs : list byte) : Z :=
  match order with
  | BigEndian => combine_msb_first bs
  | LittleEndian => combine_msb_first (rev bs)
  end.

(** [*reinterpret_cast<const std::uint64_t*>(payload)]: the eight bytes at
    [payload], read as one object in the host's order.  Fewer than eight
    readable bytes: the read is out of bounds. *)
Definition load_uint64 `{Host} (payload : list byte) : option Z :=
  match payload with
  | b0 :: b1 :: b2 :: b3 :: b4 :: b5 :: b6 :: b7 :: _ =>
      Some (combine_bytes host_order [b0; b1; b2; b3; b4; b5; b6; b7])
  | _ => None
  end.

(** The object representation of a 64-bit integer (two's complement when
    it is signed), as [reinterpret_cast<char*>(&_onDisk)] exposes it. *)
Definition split_lsb_first (v : Z) : list byte :=
  map (fun k => byte_of_Z (Z.shiftr v (8 * Z.of_nat k))) (seq 0 8).

Definition object_bytes `{Host} (v : Z) : list byte :=
  match host_order with
  | LittleEndian => split_lsb_first v
  | BigEndian => rev (split_lsb_first v)
  end.

(** The storage of an array of 64-bit integers: the elements' object
    representations one after the other. *)
Definition array_bytes `{Host} (vs : list Z) : list byte :=
  concat (map object_bytes vs).

(** ** GiftedBaseType *)

(** [enum GiftedTypeId { _GiftedUnknownTypeId = -1, _GiftedIntTypeId }]. *)
Inductive GiftedTypeId : Type :=
  | _GiftedUnknownTypeId
  | _GiftedIntTypeId.

Definition GiftedTypeId_code (t : GiftedTypeId) : Z :=
  match t with
  | _GiftedUnknownTypeId => -1
  | _GiftedIntTypeId => 0
  end.

#[global] Instance GiftedTypeId_eq_dec : EqDecision GiftedTypeId.
Proof. solve_decision. Defined.

(** The state of a [GiftedIntegerType]: its [_value]. *)
Record GiftedIntegerType : Type := mkGiftedIntegerType { _value : Z }.

(** What a [GiftedBaseType*] may point to, by dynamic class: the integer
    variant, or an instance of some other subclass.  The enumeration has no
    identifier for such a class, so it keeps the base class's [myType]. *)
Inductive GiftedObject : Type :=
  | IntegerObject (x : GiftedIntegerType)
  | ForeignObject.

(** [GiftedBaseType::myType], the default a subclass inherits. *)
Definition GiftedBaseType_myType : GiftedTypeId := _GiftedUnknownTypeId.

(** [GiftedIntegerType::myType]. *)
Definition GiftedIntegerType_myType (this : GiftedIntegerType) : GiftedTypeId :=
  _GiftedIntTypeId.

(** [right->myType()], dispatched on the dynamic class. *)
Definition dyn_myType (o : GiftedObject) : GiftedTypeId :=
  match o with
  | IntegerObject x => GiftedIntegerType_myType x
  | ForeignObject => GiftedBaseType_myType
  end.

(** [dynamic_cast<const GiftedIntegerType*>(right)]; [None] is the null
    pointer. *)
Definition dynamic_cast_Integer (o : GiftedObject) : option GiftedIntegerType :=
  match o with
  | IntegerObject x => Some x
  | ForeignObject => None
  end.

(** The pure virtual members of [GiftedBaseType] (and [myType], which a
    variant overrides).  [T] is the state of the subclass; [as_base] is the
    implicit conversion of a [T*] to a [GiftedBaseType*]. *)
Class GiftedBaseType (T : Type) : Type := {
  Clone : T -> T;
  myType : T -> GiftedTypeId;
  getLength : T -> N;
  UnMarshall : T -> list byte -> N -> option T;
  Equal : T -> GiftedObject -> bool -> bool;
  LessThan : T -> GiftedObject -> bool -> bool;
  AddToLeft : T -> GiftedObject -> T;
  as_base : T -> GiftedObject
}.

Section GiftedBaseType_defaults.
Context {T : Type} `{GiftedBaseType T}.

(** [Equal(right, result); result =! result;] *)
Definition NotEqual (this : T) (right : GiftedObject) (result : bool) : bool :=
  let result := Equal this right result in
  negb result.

(** [LessThan(right, result); if (!result) return Equal(right, result);] *)
Definition LessThanOrEqual (this : T) (right : GiftedObject) (result : bool) : bool :=
  let result := LessThan this right result in
  if negb result then Equal this right result else result.

(** [LessThanOrEqual(right, result); result =! result;] *)
Definition GreaterThan (this : T) (right : GiftedObject) (result : bool) : bool :=
  let result := LessThanOrEqual this right result in
  negb result.

(** [LessThan(right, result); result =! result;] *)
Definition GreaterThanOrEqual (this : T) (right : GiftedObject) (result : bool) : bool :=
  let result := LessThan this right result in
  negb result.

(** The body of the loop of [VectorizedEqual], [steps] more times from
    index [i] on: decode the element at offset [i * elementLength] into
    the scratch instance and compare it to the literal, writing
    [result[i]].  Each [result[i]] must be a slot of the caller's array. *)
Fixpoint VectorizedEqual_loop (steps : nat) (i : N) (elementLength : N)
    (vectorDataElements : list byte) (_callerTypeInstance _literalInstance : T)
    (result : list bool) : option (list bool) :=
  match steps with
  | O => Some result
  | S steps' =>
      let offset := size_t_wrap (i * elementLength) in
      match UnMarshall _callerTypeInstance
              (drop (N.to_nat offset) vectorDataElements) elementLength with
      | None => None
      | Some _callerTypeInstance =>
          match result !! N.to_nat i with
          | None => None
          | Some slot =>
              let slot := Equal _callerTypeInstance (as_base _literalInstance) slot in
              VectorizedEqual_loop steps' (i + 1)%N elementLength vectorDataElements
                _callerTypeInstance _literalInstance (<[N.to_nat i := slot]> result)
          end
      end
  end.

(** [GiftedBaseType::VectorizedEqual]: two scratch instances are cloned
    from the receiver, the literal is decoded once, and the loop runs
    for [i = 0 .. vectorLength - 1]. *)
Definition VectorizedEqual (this : T) (elementLength : N)
    (vectorDataElements : list byte) (vectorLength : N)
    (rawLiteralData : list byte) (result : list bool) : option (list bool) :=
  let _callerTypeInstance := Clone this in
  let _literalInstance := Clone this in
  match UnMarshall _literalInstance rawLiteralData elementLength with
  | None => None
  | Some _literalInstance =>
      VectorizedEqual_loop (N.to_nat vectorLength) 0%N elementLength
        vectorDataElements _callerTypeInstance _literalInstance result
  end.
End GiftedBaseType_defaults.

(** ** GiftedIntegerType *)

(** [GiftedIntegerType() : _value(0) {}]. *)
Definition GiftedIntegerType_new : GiftedIntegerType := {| _value := 0 |}.

(** [Clone]: [return new GiftedIntegerType;]. *)
Definition GiftedIntegerType_Clone (this : GiftedIntegerType) : GiftedIntegerType :=
  GiftedIntegerType_new.

(** [getLength]: [sizeof(std::uint64_t)]. *)
Definition GiftedIntegerType_getLength (this : GiftedIntegerType) : N := 8%N.

(** [UnMarshall]: [_value = *reinterpret_cast<const std::uint64_t*>(payload)];
    [length] is not looked at. *)
Definition GiftedIntegerType_UnMarshall `{Host} (this : GiftedIntegerType)
    (payload : list byte) (length : N) : option GiftedIntegerType :=
  match load_uint64 payload with
  | Some v => Some {| _value := v |}
  | None => None
  end.

(** [Equal]: writes [result] only when [right] reports the integer
    identifier.  Only an [IntegerObject] reports it, so the cast cannot
    yield the null pointer there (see [dynamic_cast_Integer_is_Some]). *)
Definition GiftedIntegerType_Equal (this : GiftedIntegerType)
    (right : GiftedObject) (result : bool) : bool :=
  if decide (dyn_myType right = _GiftedIntTypeId) then
    match dynamic_cast_Integer right with
    | Some r => _value this =? _value r
    | None => result
    end
  else result.

Definition GiftedIntegerType_LessThan (this : GiftedIntegerType)
    (right : GiftedObject) (result : bool) : bool :=
  if decide (dyn_myType right = _GiftedIntTypeId) then
    match dynamic_cast_Integer right with
    | Some r => _value this <? _value r
    | None => result
    end
  else result.

(** [AddToLeft]: [_value += right->_value] on [std::uint64_t]. *)
Definition GiftedIntegerType_AddToLeft (this : GiftedIntegerType)
    (right : GiftedObject) : GiftedIntegerType :=
  if decide (dyn_myType right = _GiftedIntTypeId) then
    match dynamic_cast_Integer right with
    | Some r => {| _value := uint64_wrap (_value this + _value r) |}
    | None => this
    end
  else this.

(** [Increment]: [_value++]. *)
Definition Increment (this : GiftedIntegerType) : GiftedIntegerType :=
  {| _value := uint64_wrap (_value this + 1) |}.

#[global] Instance GiftedIntegerType_GiftedBaseType `{Host} :
  GiftedBaseType GiftedIntegerType := {
  Clone := GiftedIntegerType_Clone;
  myType := GiftedIntegerType_myType;
  getLength := GiftedIntegerType_getLength;
  UnMarshall := GiftedIntegerType_UnMarshall;
  Equal := GiftedIntegerType_Equal;
  LessThan := GiftedIntegerType_LessThan;
  AddToLeft := GiftedIntegerType_AddToLeft;
  as_base := IntegerObject
}.

(** ** Objects behind pointers *)

(** A store maps the address of every live object to its state.  Only the
    methods of [GiftedIntegerType] are in the source: a call whose
    receiver is not a live integer instance is [None]. *)

(** [new GiftedIntegerType]: a default-constructed instance at an address
    no live object has. *)
Definition new_GiftedIntegerType (st : gmap positive GiftedObject) :
    positive * gmap positive GiftedObject :=
  let l := fresh (dom st) in
  (l, <[l := IntegerObject GiftedIntegerType_new]> st).

Section Calls.
Context {host : Host}.

(** [this->Clone()]. *)
Definition call_Clone (st : gmap positive GiftedObject) (this : positive) :
    option (positive * gmap positive GiftedObject) :=
  match st !! this with
  | Some (IntegerObject x) =>
      let l := fresh (dom st) in
      Some (l, <[l := IntegerObject (Clone x)]> st)
  | _ => None
  end.

(** [this->UnMarshall(payload, length)]. *)
Definition call_UnMarshall (st : gmap positive GiftedObject) (this : positive)
    (payload : list byte) (length : N) : option (gmap positive GiftedObject) :=
  match st !! this with
  | Some (IntegerObject x) =>
      match UnMarshall x payload length with
      | Some x' => Some (<[this := IntegerObject x']> st)
      | None => None
      end
  | _ => None
  end.

(** [this->AddToLeft(right)]; nothing keeps [right] from being [this]. *)
Definition call_AddToLeft (st : gmap positive GiftedObject)
    (this right : positive) : option (gmap positive GiftedObject) :=
  match st !! this, st !! right with
  | Some (IntegerObject x), Some r =>
      Some (<[this := IntegerObject (AddToLeft x r)]> st)
  | _, _ => None
  end.

(** A call of one of the [const] comparison members, [cmp]. *)
Definition call_comparison
    (cmp : GiftedIntegerType -> GiftedObject -> bool -> bool)
    (st : gmap positive GiftedObject) (this right : positive)
    (result : bool) : option bool :=
  match st !! this, st !! right with
  | Some (IntegerObject x), Some r => Some (cmp x r result)
  | _, _ => None
  end.
End Calls.

(** The first half of [main]: two instances decoded from [_onDisk], which
    holds 13 and then 26, the six comparisons in the order the driver
    prints them, all through the one variable [result] (uninitialised in
    the source: any entry value), and the sum.  The outcome is the six
    values printed and the object [anAttr] points to at the end. *)
Definition main_scalar `{Host} (result : bool) :
    option (list bool * option GiftedObject) :=
  let _onDisk := 13 in
  let '(anAttr, st) := new_GiftedIntegerType ∅ in
  st ← call_UnMarshall st anAttr (object_bytes _onDisk) 8;
  let _onDisk := _onDisk * 2 in
  let '(anotherAttr, st) := new_GiftedIntegerType st in
  st ← call_UnMarshall st anotherAttr (object_bytes _onDisk) 8;
  r_eq ← call_comparison Equal st anAttr anotherAttr result;
  r_lt ← call_comparison LessThan st anAttr anotherAttr r_eq;
  r_ne ← call_comparison NotEqual st anAttr anotherAttr r_lt;
  r_le ← call_comparison LessThanOrEqual st anAttr anotherAttr r_ne;
  r_gt ← call_comparison GreaterThan st anAttr anotherAttr r_le;
  r_ge ← call_comparison GreaterThanOrEqual st anAttr anotherAttr r_gt;
  st ← call_AddToLeft st anAttr anotherAttr;
  Some ([r_eq; r_lt; r_ne; r_le; r_gt; r_ge], st !! anAttr).

(** [GiftedBaseType::VectorizedEqual] on objects behind pointers: the two
    scratch instances are allocated by [Clone], every [UnMarshall] and
    [Equal] goes through their addresses, and both are deleted at the end,
    [_callerTypeInstance] first. *)
Fixpoint call_VectorizedEqual_loop `{Host} (steps : nat) (i : N)
    (elementLength : N) (vectorDataElements : list byte)
    (st : gmap positive GiftedObject)
    (_callerTypeInstance _literalInstance : positive)
    (result : list bool) : option (gmap positive GiftedObject * list bool) :=
  match steps with
  | O => Some (st, result)
  | S steps' =>
      let offset := size_t_wrap (i * elementLength) in
      st ← call_UnMarshall st _callerTypeInstance
             (drop (N.to_nat offset) vectorDataElements) elementLength;
      slot ← result !! N.to_nat i;
      slot ← call_comparison Equal st _callerTypeInstance _literalInstance slot;
      call_VectorizedEqual_loop steps' (i + 1)%N elementLength
        vectorDataElements st _callerTypeInstance _literalInstance
        (<[N.to_nat i := slot]> result)
  end.

Definition call_VectorizedEqual `{Host} (st : gmap positive GiftedObject)
    (this : positive) (elementLength : N) (vectorDataElements : list byte)
    (vectorLength : N) (rawLiteralData : list byte) (result : list bool) :
    option (gmap positive GiftedObject * list bool) :=
  '(_callerTypeInstance, st) ← call_Clone st this;
  '(_literalInstance, st) ← call_Clone st this;
  st ← call_UnMarshall st _literalInstance rawLiteralData elementLength;
  '(st, result) ← call_VectorizedEqual_loop (N.to_nat vectorLength) 0%N
                    elementLength vectorDataElements st
                    _callerTypeInstance _literalInstance result;
  Some (delete _literalInstance (delete _callerTypeInstance st), result).

(** Bytes can be compared. *)
#[global] Instance byte_eq_decision : EqDecision byte := Byte.byte_eq_dec.

(** The offset iteration [j] of the loop of [VectorizedEqual] reads at:
    [j * elementLength], computed in [std::size_t]. *)
Definition element_offset (elementLength : N) (j : nat) : nat :=
  N.to_nat (size_t_wrap (N.of_nat j * elementLength)).


(** A [std::int64_t]. *)
Definition is_int64 (z : Z) : Prop := - 2 ^ 63 <= z < 2 ^ 63.

(** The host the demonstration driver was written on. *)
Definition x86_64 : Host := LittleEndian.

(** ** What the design document's words mean *)

(** The unsigned integer a run of bytes denotes, least significant byte
    first: byte [k] weighs [256^k]. *)
Fixpoint unsigned_lsb_first (bs : list byte) : Z :=
  match bs with
  | [] => 0
  | b :: bs' => byte_val b + 256 * unsigned_lsb_first bs'
  end.

(** The same in a given byte order. *)
Definition unsigned_value (order : ByteOrder) (bs : list byte) : Z :=
  match order with
  | LittleEndian => unsigned_lsb_first bs
  | BigEndian => unsigned_lsb_first (rev bs)
  end.

(** Bytes [[i*w, (i+1)*w)] of a buffer. *)
Definition slice (w : N) (buffer : list byte) (i : nat) : list byte :=
  take (N.to_nat w) (drop (i * N.to_nat w) buffer).

(** Whether the eight bytes at offset [k * w] of a buffer read, in the
    host's order, as the value of [literal]. *)
Definition element_equals `{Host} (w : N) (buffer : list byte)
    (literal : GiftedIntegerType) (k : nat) : bool :=
  combine_bytes host_order (take 8 (drop (k * N.to_nat w) buffer))
  =? _value literal.

(** The vector of the demonstration driver's [_onDiskB]:
    [i % 2 ? i : i * 2]. *)
Definition onDiskB (i : nat) : Z :=
  if Z.odd (Z.of_nat i) then Z.of_nat i else Z.of_nat i * 2.

(** The vector of the driver's [_onDiskA]. *)
Definition onDiskA (i : nat) : Z := Z.of_nat i.

(** * Properties *)

(** ** Bytes and machine integers *)

Lemma byte_val_range (b : byte) : 0 <= byte_val b < 256.
Proof.
  unfold byte_val. pose proof (Byte.to_N_bounded b). lia.
Qed.

Lemma byte_val_of_Z (z : Z) : byte_val (byte_of_Z z) = z mod 256.
Proof.
  unfold byte_val, byte_of_Z.
  change 255 with (Z.ones 8). rewrite Z.land_ones by lia.
  change (2 ^ 8) with 256.
  pose proof (Z.mod_pos_bound z 256 ltac:(lia)) as Hr.
  destruct (Byte.of_N (Z.to_N (z mod 256))) as [b|] eqn:E.
  - apply Byte.to_of_N in E. rewrite E. lia.
  - apply Byte.of_N_None_iff in E. lia.
Qed.

(** Gluing a byte below a non-negative number with shift-and-or is
    multiply-and-add. *)
Lemma shift_or_byte (acc : Z) (b : byte) :
  0 <= acc -> Z.lor (Z.shiftl acc 8) (byte_val b) = byte_val b + 256 * acc.
Proof.
  intros Hacc. pose proof (byte_val_range b) as Hb.
  rewrite <- Z.add_nocarry_lor.
  - rewrite Z.shiftl_mul_pow2 by lia. change (2 ^ 8) with 256. lia.
  - apply Z.bits_inj'. intros n Hn.
    rewrite Z.land_spec, Z.bits_0.
    destruct (Z.lt_ge_cases n 8) as [Hlt|Hge].
    + rewrite Z.shiftl_spec_low by lia. reflexivity.
    + rewrite (Z.bits_above_log2 (byte_val b) n); [apply andb_false_r|lia|].
      destruct (Z.eq_dec (byte_val b) 0) as [E|E].
      * rewrite E. simpl. lia.
      * apply Z.log2_lt_pow2; [lia|].
        apply Z.lt_le_trans with (2 ^ 8); [change (2 ^ 8) with 256; lia|].
        apply Z.pow_le_mono_r; lia.
Qed.

Lemma unsigned_lsb_first_nonneg (bs : list byte) : 0 <= unsigned_lsb_first bs.
Proof.
  induction bs as [|b bs IH]; simpl; [lia|].
  pose proof (byte_val_range b). lia.
Qed.

Lemma unsigned_lsb_first_bound (bs : list byte) :
  unsigned_lsb_first bs < 256 ^ Z.of_nat (List.length bs).
Proof.
  induction bs as [|b bs IH]; [simpl; lia|].
  cbn [unsigned_lsb_first List.length].
  rewrite Nat2Z.inj_succ, Z.pow_succ_r by lia.
  pose proof (byte_val_range b). lia.
Qed.

(** The shift-and-or loop over the bytes, most significant first,
    computes the positional value of the reversed run. *)
Lemma combine_msb_first_rev (bs : list byte) :
  combine_msb_first (rev bs) = unsigned_lsb_first bs.
Proof.
  unfold combine_msb_first.
  induction bs as [|b bs IH]; [reflexivity|].
  simpl rev. rewrite fold_left_app. simpl fold_left.
  rewrite IH. simpl unsigned_lsb_first.
  apply shift_or_byte, unsigned_lsb_first_nonneg.
Qed.

Lemma combine_bytes_unsigned_value (order : ByteOrder) (bs : list byte) :
  combine_bytes order bs = unsigned_value order bs.
Proof.
  destruct order; simpl.
  - apply combine_msb_first_rev.
  - rewrite <- (rev_involutive bs) at 1. apply combine_msb_first_rev.
Qed.

Lemma combine_bytes_uint64 (order : ByteOrder) (bs : list byte) :
  List.length bs = 8%nat -> is_uint64 (combine_bytes order bs).
Proof.
  intros Hlen. rewrite combine_bytes_unsigned_value.
  unfold is_uint64, uint64_modulus.
  assert (Hb : forall l : list byte, List.length l = 8%nat ->
             0 <= unsigned_lsb_first l < 2 ^ 64).
  { intros l Hl. split; [apply unsigned_lsb_first_nonneg|].
    pose proof (unsigned_lsb_first_bound l) as Hu. rewrite Hl in Hu.
    change (256 ^ Z.of_nat 8) with (2 ^ 64) in Hu. exact Hu. }
  destruct order; simpl; apply Hb; [exact Hlen|].
  rewrite length_rev. exact Hlen.
Qed.

(** *** Storing and loading again *)

Lemma split_lsb_first_value (v : Z) (k n : nat) :
  unsigned_lsb_first
    (map (fun j => byte_of_Z (Z.shiftr v (8 * Z.of_nat j))) (seq k n))
  = Z.shiftr v (8 * Z.of_nat k) mod 256 ^ Z.of_nat n.
Proof.
  revert k. induction n as [|n IH]; intros k.
  - simpl. rewrite Z.mod_1_r. reflexivity.
  - cbn [seq map unsigned_lsb_first]. rewrite IH, byte_val_of_Z.
    rewrite (Nat2Z.inj_succ n), Z.pow_succ_r by lia.
    rewrite (Z.rem_mul_r _ 256 (256 ^ Z.of_nat n)) by lia.
    do 2 f_equal.
    replace (8 * Z.of_nat (S k)) with (8 * Z.of_nat k + 8) by lia.
    rewrite <- Z.shiftr_shiftr by lia.
    rewrite (Z.shiftr_div_pow2 _ 8) by lia. reflexivity.
Qed.

Lemma split_lsb_first_length (v : Z) : List.length (split_lsb_first v) = 8%nat.
Proof. reflexivity. Qed.

Lemma unsigned_split_lsb_first (v : Z) :
  unsigned_lsb_first (split_lsb_first v) = uint64_wrap v.
Proof.
  unfold split_lsb_first. rewrite split_lsb_first_value.
  rewrite Z.shiftr_0_r. reflexivity.
Qed.

Section HostLemmas.
Context {host : Host}.

Lemma object_bytes_length (v : Z) : List.length (object_bytes v) = 8%nat.
Proof.
  unfold object_bytes. destruct host_order; [reflexivity|].
  rewrite length_rev. reflexivity.
Qed.

Lemma load_uint64_Some (payload : list byte) :
  (8 <= List.length payload)%nat ->
  load_uint64 payload = Some (combine_bytes host_order (take 8 payload)).
Proof.
  intros Hlen.
  do 8 (destruct payload as [|? payload]; [simpl in Hlen; lia|]).
  reflexivity.
Qed.

Lemma load_uint64_None (payload : list byte) :
  (List.length payload < 8)%nat -> load_uint64 payload = None.
Proof.
  intros Hlen.
  do 8 (destruct payload as [|? payload]; [reflexivity|]).
  simpl in Hlen. lia.
Qed.


(** Reading back what the host stored gives the stored integer modulo
    2^64, whatever follows it in memory: a signed quantity comes back as
    its two's-complement reading. *)
Lemma load_object_bytes (v : Z) (rest : list byte) :
  load_uint64 (object_bytes v ++ rest) = Some (uint64_wrap v).
Proof.
  rewrite load_uint64_Some by (rewrite length_app, object_bytes_length; lia).
  rewrite take_app_length' by (symmetry; apply object_bytes_length).
  rewrite combine_bytes_unsigned_value.
  unfold object_bytes, unsigned_value. f_equal.
  destruct host_order.
  - apply unsigned_split_lsb_first.
  - rewrite rev_involutive. apply unsigned_split_lsb_first.
Qed.

Lemma array_bytes_length (vs : list Z) :
  List.length (array_bytes vs) = (8 * List.length vs)%nat.
Proof.
  unfold array_bytes. induction vs as [|v vs IH]; [reflexivity|].
  cbn [map concat List.length]. rewrite length_app, IH, object_bytes_length. lia.
Qed.

(** Element [i] of a stored array starts at byte [8 * i]. *)
Lemma array_bytes_drop (vs : list Z) (i : nat) :
  drop (8 * i) (array_bytes vs) = array_bytes (drop i vs).
Proof.
  revert vs. induction i as [|i IH]; intros vs.
  - reflexivity.
  - destruct vs as [|v vs].
    + rewrite !drop_nil. reflexivity.
    + replace (8 * S i)%nat with (8 + 8 * i)%nat by lia.
      unfold array_bytes. cbn [map concat]. rewrite <- drop_drop.
      rewrite drop_app_length' by (symmetry; apply object_bytes_length).
      apply IH.
Qed.

Lemma load_array_bytes (vs : list Z) (i : nat) (v : Z) :
  vs !! i = Some v ->
  load_uint64 (drop (8 * i) (array_bytes vs)) = Some (uint64_wrap v).
Proof.
  intros Hi. rewrite array_bytes_drop.
  rewrite (drop_S _ _ _ Hi). unfold array_bytes. cbn [map concat].
  apply load_object_bytes.
Qed.
End HostLemmas.

(** ** The members of GiftedIntegerType *)

Lemma dynamic_cast_Integer_is_Some (o : GiftedObject) :
  dyn_myType o = _GiftedIntTypeId ->
  exists x, o = IntegerObject x /\ dynamic_cast_Integer o = Some x.
Proof.
  destruct o as [x|]; [eauto|discriminate].
Qed.

Lemma dyn_myType_mismatch (o : GiftedObject) :
  dyn_myType o <> _GiftedIntTypeId -> o = ForeignObject.
Proof.
  destruct o as [x|]; [|reflexivity]. intros Hne. exfalso. apply Hne. reflexivity.
Qed.

Section Members.
Context {host : Host}.
Implicit Types (this a b c : GiftedIntegerType) (right : GiftedObject).
Implicit Types (result : bool).

Lemma Equal_Integer this b result :
  Equal this (IntegerObject b) result = (_value this =? _value b).
Proof. reflexivity. Qed.

Lemma LessThan_Integer this b result :
  LessThan this (IntegerObject b) result = (_value this <? _value b).
Proof. reflexivity. Qed.

Lemma AddToLeft_Integer this b :
  AddToLeft this (IntegerObject b)
  = {| _value := uint64_wrap (_value this + _value b) |}.
Proof. reflexivity. Qed.

Lemma Equal_Foreign this result : Equal this ForeignObject result = result.
Proof. reflexivity. Qed.

Lemma LessThan_Foreign this result : LessThan this ForeignObject result = result.
Proof. reflexivity. Qed.

Lemma AddToLeft_Foreign this : AddToLeft this ForeignObject = this.
Proof. reflexivity. Qed.

Lemma UnMarshall_Some this (payload : list byte) (length : N) :
  (8 <= List.length payload)%nat ->
  UnMarshall this payload length
  = Some {| _value := combine_bytes host_order (take 8 payload) |}.
Proof.
  intros Hlen. cbn [UnMarshall GiftedIntegerType_GiftedBaseType].
  unfold GiftedIntegerType_UnMarshall.
  rewrite load_uint64_Some by exact Hlen. reflexivity.
Qed.

Lemma UnMarshall_None this (payload : list byte) (length : N) :
  (List.length payload < 8)%nat -> UnMarshall this payload length = None.
Proof.
  intros Hlen. cbn [UnMarshall GiftedIntegerType_GiftedBaseType].
  unfold GiftedIntegerType_UnMarshall.
  rewrite load_uint64_None by exact Hlen. reflexivity.
Qed.

(** *** Every member keeps [_value] a [std::uint64_t] *)


Lemma uint64_wrap_uint64 (z : Z) : is_uint64 (uint64_wrap z).
Proof.
  unfold is_uint64, uint64_wrap, uint64_modulus. apply Z.mod_pos_bound. lia.
Qed.



Lemma Increment_uint64 this : is_uint64 (_value (Increment this)).
Proof. apply uint64_wrap_uint64. Qed.

(** *** The loop of VectorizedEqual *)

Lemma VectorizedEqual_loop_S (steps : nat) (i w : N) (buffer : list byte)
    (caller literal : GiftedIntegerType) (out : list bool) :
  VectorizedEqual_loop (S steps) i w buffer caller literal out
  = match UnMarshall caller (drop (N.to_nat (size_t_wrap (i * w))) buffer) w with
    | None => None
    | Some caller' =>
        match out !! N.to_nat i with
        | None => None
        | Some slot =>
            VectorizedEqual_loop steps (i + 1)%N w buffer caller' literal
              (<[N.to_nat i := Equal caller' (IntegerObject literal) slot]> out)
        end
    end.
Proof. reflexivity. Qed.

Lemma VectorizedEqual_loop_spec (steps i : nat) (w : N) (buffer : list byte)
    (caller literal : GiftedIntegerType) (out : list bool) :
  (8 <= w)%N ->
  (N.of_nat (List.length buffer) < size_t_modulus)%N ->
  ((i + steps) * N.to_nat w <= List.length buffer)%nat ->
  (i + steps <= List.length out)%nat ->
  VectorizedEqual_loop steps (N.of_nat i) w buffer caller literal out
  = Some (take i out ++ map (element_equals w buffer literal) (seq i steps)
            ++ drop (i + steps) out).
Proof.
  intros Hw Hsize. revert i caller out.
  induction steps as [|steps IH]; intros i caller out Hbuf Hout.
  - simpl. rewrite Nat.add_0_r, take_drop. reflexivity.
  - rewrite VectorizedEqual_loop_S.
    assert (Hoff : N.to_nat (size_t_wrap (N.of_nat i * w)) = (i * N.to_nat w)%nat).
    { unfold size_t_wrap. rewrite N.mod_small by nia. lia. }
    rewrite Hoff.
    rewrite UnMarshall_Some by (rewrite length_drop; nia).
    rewrite Nat2N.id.
    destruct (lookup_lt_is_Some_2 out i ltac:(lia)) as [slot Hslot].
    rewrite Hslot, Equal_Integer.
    replace (N.of_nat i + 1)%N with (N.of_nat (S i)) by lia.
    rewrite IH by (rewrite ?length_insert; lia).
    f_equal. cbn [seq map].
    replace (S i + steps)%nat with (i + S steps)%nat by lia.
    rewrite drop_insert_lt by lia.
    rewrite take_insert_lt by lia.
    rewrite (take_S_r _ _ _ Hslot), insert_app_r_alt by (rewrite length_take; lia).
    rewrite length_take, Nat.min_l by lia.
    rewrite Nat.sub_diag. cbn [insert list_insert].
    rewrite <- app_assoc. reflexivity.
Qed.
End Members.

(** ** Comparisons *)

Section Comparisons.
Context {host : Host}.
Implicit Types (this a b c : GiftedIntegerType) (right : GiftedObject).
Implicit Types (result : bool).

(** *** An operand of another variant *)

Lemma Equal_mismatch this right result :
  dyn_myType right <> _GiftedIntTypeId -> Equal this right result = result.
Proof. intros ->%dyn_myType_mismatch. apply Equal_Foreign. Qed.

Lemma LessThan_mismatch this right result :
  dyn_myType right <> _GiftedIntTypeId -> LessThan this right result = result.
Proof. intros ->%dyn_myType_mismatch. apply LessThan_Foreign. Qed.

Lemma AddToLeft_mismatch this right :
  dyn_myType right <> _GiftedIntTypeId -> AddToLeft this right = this.
Proof. intros ->%dyn_myType_mismatch. apply AddToLeft_Foreign. Qed.

Lemma NotEqual_mismatch this right result :
  dyn_myType right <> _GiftedIntTypeId -> NotEqual this right result = negb result.
Proof. intros Hne. unfold NotEqual. rewrite Equal_mismatch by exact Hne. reflexivity. Qed.

Lemma LessThanOrEqual_mismatch this right result :
  dyn_myType right <> _GiftedIntTypeId -> LessThanOrEqual this right result = result.
Proof.
  intros Hne. unfold LessThanOrEqual.
  rewrite LessThan_mismatch, Equal_mismatch by exact Hne.
  destruct result; reflexivity.
Qed.

Lemma GreaterThan_mismatch this right result :
  dyn_myType right <> _GiftedIntTypeId -> GreaterThan this right result = negb result.
Proof.
  intros Hne. unfold GreaterThan. rewrite LessThanOrEqual_mismatch by exact Hne.
  reflexivity.
Qed.

Lemma GreaterThanOrEqual_mismatch this right result :
  dyn_myType right <> _GiftedIntTypeId ->
  GreaterThanOrEqual this right result = negb result.
Proof.
  intros Hne. unfold GreaterThanOrEqual. rewrite LessThan_mismatch by exact Hne.
  reflexivity.
Qed.

(** [UnMarshall] never looks at [length]. *)
Lemma UnMarshall_length_irrelevant this (payload : list byte) (length length' : N) :
  UnMarshall this payload length = UnMarshall this payload length'.
Proof. reflexivity. Qed.

(** *** Operands of the integer variant *)

(** Decide every comparison of values in the goal and close the cases. *)
Ltac compare_values :=
  repeat match goal with
    | |- context [(?x <? ?y)] => destruct (Z.ltb_spec x y)
    | |- context [(?x <=? ?y)] => destruct (Z.leb_spec x y)
    | |- context [(?x =? ?y)] => destruct (Z.eqb_spec x y)
    end;
  simpl; try reflexivity; try lia.

Lemma NotEqual_Integer this b result :
  NotEqual this (IntegerObject b) result = negb (_value this =? _value b).
Proof. reflexivity. Qed.

Lemma LessThanOrEqual_Integer this b result :
  LessThanOrEqual this (IntegerObject b) result = (_value this <=? _value b).
Proof.
  unfold LessThanOrEqual. rewrite LessThan_Integer, Equal_Integer.
  compare_values.
Qed.

Lemma GreaterThan_Integer this b result :
  GreaterThan this (IntegerObject b) result = (_value b <? _value this).
Proof.
  unfold GreaterThan. rewrite LessThanOrEqual_Integer. compare_values.
Qed.

Lemma GreaterThanOrEqual_Integer this b result :
  GreaterThanOrEqual this (IntegerObject b) result = (_value b <=? _value this).
Proof.
  unfold GreaterThanOrEqual. rewrite LessThan_Integer. compare_values.
Qed.

(** C3.  For an integer instance [a] and a right operand [right] that
    reports the same type identifier, the derived comparators agree with
    the primitive ones: NotEqual is the negation of Equal,
    LessThanOrEqual is LessThan or Equal, GreaterThan is the negation of
    LessThanOrEqual and GreaterThanOrEqual is the negation of LessThan.
    Each call may find any value in its output parameter on entry. *)
Theorem derived_comparators_consistent a right (r0 r1 r2 : bool) :
  dyn_myType right = myType a ->
  NotEqual a right r0 = negb (Equal a right r1) /\
  LessThanOrEqual a right r0 = LessThan a right r1 || Equal a right r2 /\
  GreaterThan a right r0 = negb (LessThanOrEqual a right r1) /\
  GreaterThanOrEqual a right r0 = negb (LessThan a right r1).
Proof.
  intros Hid. destruct (dynamic_cast_Integer_is_Some right Hid) as (b & -> & _).
  rewrite NotEqual_Integer, GreaterThan_Integer, GreaterThanOrEqual_Integer.
  rewrite !LessThanOrEqual_Integer, !LessThan_Integer, !Equal_Integer.
  repeat split; compare_values.
Qed.

(** C9.  On integer instances Equal is reflexive and symmetric and
    LessThan is transitive, whatever the output parameters held on
    entry. *)
Theorem Equal_reflexive_symmetric_LessThan_transitive
    (a b c : GiftedIntegerType) (r0 r1 r2 : bool) :
  Equal a (as_base a) r0 = true /\
  Equal a (as_base b) r0 = Equal b (as_base a) r1 /\
  (LessThan a (as_base b) r0 = true ->
   LessThan b (as_base c) r1 = true ->
   LessThan a (as_base c) r2 = true).
Proof.
  cbn [as_base GiftedIntegerType_GiftedBaseType].
  rewrite !Equal_Integer, !LessThan_Integer. repeat split.
  - apply Z.eqb_refl.
  - apply Z.eqb_sym.
  - rewrite !Z.ltb_lt. lia.
Qed.

(** C10, as the code has it.  When the right operand does not report
    the integer identifier, NotEqual, GreaterThan and GreaterThanOrEqual
    each return the negation of what the output parameter held on
    entry, because Equal and LessThan return without writing; and
    LessThanOrEqual leaves the output parameter as it was, its call of
    Equal writing nothing either. *)
Theorem derived_comparators_on_mismatch this right result :
  dyn_myType right <> myType this ->
  Equal this right result = result /\
  LessThan this right result = result /\
  NotEqual this right result = negb result /\
  GreaterThan this right result = negb result /\
  GreaterThanOrEqual this right result = negb result /\
  LessThanOrEqual this right result = result.
Proof.
  intros Hne. change (myType this) with _GiftedIntTypeId in Hne.
  repeat split;
    auto using Equal_mismatch, LessThan_mismatch, NotEqual_mismatch,
      GreaterThan_mismatch, GreaterThanOrEqual_mismatch,
      LessThanOrEqual_mismatch.
Qed.

(** C2, as the code has it.  When the right operand's type identifier
    differs from the receiver's, Equal, LessThan and LessThanOrEqual
    return the output parameter as it was and AddToLeft leaves the
    receiver as it was, while NotEqual, GreaterThan and
    GreaterThanOrEqual return the negation of the entry value.
    UnMarshall does not look at the length it is given: it behaves as
    with the declared width, and when eight bytes are readable it
    replaces the value by what they hold.  None of them reports
    anything. *)
Theorem mismatches_are_not_signalled this right result
    (payload : list byte) (length : N) :
  dyn_myType right <> myType this ->
  length <> getLength this ->
  (Equal this right result = result /\
   LessThan this right result = result /\
   LessThanOrEqual this right result = result /\
   AddToLeft this right = this) /\
  (NotEqual this right result = negb result /\
   GreaterThan this right result = negb result /\
   GreaterThanOrEqual this right result = negb result) /\
  UnMarshall this payload length = UnMarshall this payload (getLength this) /\
  ((8 <= List.length payload)%nat ->
   UnMarshall this payload length
   = Some {| _value := combine_bytes host_order (take 8 payload) |}).
Proof.
  intros Hne _. change (myType this) with _GiftedIntTypeId in Hne.
  repeat split;
    auto using Equal_mismatch, LessThan_mismatch, NotEqual_mismatch,
      GreaterThan_mismatch, GreaterThanOrEqual_mismatch,
      LessThanOrEqual_mismatch, AddToLeft_mismatch, UnMarshall_Some.
Qed.
End Comparisons.

(** ** Construction, decoding and arithmetic *)

Section Instances.
Context {host : Host}.
Implicit Types (this x : GiftedIntegerType) (st : gmap positive GiftedObject).

Lemma Clone_default this : Clone this = GiftedIntegerType_new.
Proof. reflexivity. Qed.

(** C4.  Called on a live integer instance [x], Clone allocates an
    object at an address no live object has and leaves every live
    object as it was; the new object has the type identifier of [x]
    and the default value 0 whatever the value of [x], so it is a copy
    of the value of [x] only when that value is 0. *)
Theorem Clone_is_a_default_factory st (this : positive) x :
  st !! this = Some (IntegerObject x) ->
  exists (l : positive) (st' : gmap positive GiftedObject),
    call_Clone st this = Some (l, st') /\
    st !! l = None /\
    st' !! l = Some (as_base (Clone x)) /\
    (forall l' : positive, l' <> l -> st' !! l' = st !! l') /\
    myType (Clone x) = myType x /\
    dyn_myType (as_base (Clone x)) = dyn_myType (as_base x) /\
    _value (Clone x) = 0 /\
    (_value (Clone x) = _value x <-> _value x = 0).
Proof.
  intros Hthis. unfold call_Clone. rewrite Hthis.
  eexists _, _. split; [reflexivity|].
  split; [apply not_elem_of_dom, is_fresh|].
  split; [apply lookup_insert_eq|].
  split; [intros l' Hl'; apply lookup_insert_ne; congruence|].
  rewrite Clone_default. simpl. intuition congruence.
Qed.

(** C8.  getLength is 8, and UnMarshall, given at least that many
    readable bytes, sets the value to the unsigned integer the first
    eight of them denote in the host's byte order, a number below
    2^64, whatever length it is told. *)
Theorem getLength_and_UnMarshall this (payload : list byte) (length : N) :
  (N.to_nat (getLength this) <= List.length payload)%nat ->
  getLength this = 8%N /\
  exists v : Z,
    UnMarshall this payload length = Some {| _value := v |} /\
    v = unsigned_value host_order (take (N.to_nat (getLength this)) payload) /\
    is_uint64 v.
Proof.
  intros Hlen. split; [reflexivity|].
  change (N.to_nat (getLength this)) with 8%nat in *.
  exists (combine_bytes host_order (take 8 payload)).
  split; [apply UnMarshall_Some, Hlen|].
  split; [apply combine_bytes_unsigned_value|].
  apply combine_bytes_uint64. rewrite length_take. lia.
Qed.

(** C7, as the code has it.  For live integer instances at [this] and
    [right], AddToLeft stores at [this] the sum of the two values
    modulo 2^64 and touches no other object: the right operand keeps
    its value when it is another object than the receiver. *)
Theorem AddToLeft_wraps st (this right : positive) (a b : GiftedIntegerType) :
  st !! this = Some (IntegerObject a) ->
  st !! right = Some (IntegerObject b) ->
  exists st' : gmap positive GiftedObject,
    call_AddToLeft st this right = Some st' /\
    st' !! this
    = Some (IntegerObject {| _value := (_value a + _value b) mod 2 ^ 64 |}) /\
    (this <> right -> st' !! right = Some (IntegerObject b)) /\
    (forall l : positive, l <> this -> st' !! l = st !! l).
Proof.
  intros Hthis Hright. unfold call_AddToLeft. rewrite Hthis, Hright.
  eexists. split; [reflexivity|].
  split; [apply lookup_insert_eq|].
  split.
  - intros Hne. rewrite lookup_insert_ne by exact Hne. exact Hright.
  - intros l Hl. apply lookup_insert_ne. congruence.
Qed.

(** AddToLeft with the receiver as its own right operand doubles the
    value. *)
Lemma AddToLeft_self st (this : positive) (a : GiftedIntegerType) :
  st !! this = Some (IntegerObject a) ->
  call_AddToLeft st this this
  = Some (<[this := IntegerObject {| _value := uint64_wrap (2 * _value a) |}]> st).
Proof.
  intros Hthis. unfold call_AddToLeft. rewrite Hthis.
  rewrite AddToLeft_Integer.
  replace (2 * _value a) with (_value a + _value a) by lia. reflexivity.
Qed.

(** C5.  With 13 decoded into X and 26 into Y from the eight bytes the
    host stores them in: Equal is false, LessThan true, NotEqual true,
    LessThanOrEqual true, GreaterThan false, GreaterThanOrEqual false,
    whatever the output parameter held; and AddToLeft leaves 39 in X. *)
Theorem scenario_A (X0 Y0 : GiftedIntegerType) (result : bool) :
  exists X Y : GiftedIntegerType,
    UnMarshall X0 (object_bytes 13) 8 = Some X /\
    UnMarshall Y0 (object_bytes 26) 8 = Some Y /\
    _value X = 13 /\ _value Y = 26 /\
    Equal X (as_base Y) result = false /\
    LessThan X (as_base Y) result = true /\
    NotEqual X (as_base Y) result = true /\
    LessThanOrEqual X (as_base Y) result = true /\
    GreaterThan X (as_base Y) result = false /\
    GreaterThanOrEqual X (as_base Y) result = false /\
    _value (AddToLeft X (as_base Y)) = 39.
Proof.
  exists {| _value := 13 |}, {| _value := 26 |}.
  assert (Hload : forall v : Z, 0 <= v < 2 ^ 64 ->
            forall x0 : GiftedIntegerType,
              UnMarshall x0 (object_bytes v) 8 = Some {| _value := v |}).
  { intros v Hv x0. cbn [UnMarshall GiftedIntegerType_GiftedBaseType].
    unfold GiftedIntegerType_UnMarshall.
    rewrite <- (app_nil_r (object_bytes v)), load_object_bytes.
    unfold uint64_wrap, uint64_modulus. rewrite Z.mod_small by exact Hv.
    reflexivity. }
  split; [apply Hload; split; [lia|reflexivity]|].
  split; [apply Hload; split; [lia|reflexivity]|].
  cbn [as_base GiftedIntegerType_GiftedBaseType].
  rewrite NotEqual_Integer, LessThanOrEqual_Integer, GreaterThan_Integer,
    GreaterThanOrEqual_Integer, Equal_Integer, LessThan_Integer,
    AddToLeft_Integer.
  repeat split.
Qed.

(** The driver's own run of that scenario, objects behind pointers. *)
Remark main_scalar_run (result : bool) :
  main_scalar result
  = Some ([false; true; true; true; false; false],
          Some (IntegerObject {| _value := 39 |})).
Proof. destruct host, result; vm_compute; reflexivity. Qed.
End Instances.

(** ** VectorizedEqual *)

Section Vectorized.
Context {host : Host}.
Implicit Types (this : GiftedIntegerType) (out : list bool).

(** With elements at least eight bytes wide, a buffer that holds the
    [n] elements, eight readable bytes of literal and [n] slots to write,
    the default algorithm overwrites the first [n] slots with the
    verdicts of [element_equals] and returns. *)
Lemma VectorizedEqual_spec this (w n : N) (buffer literal : list byte) out :
  (8 <= w)%N ->
  (N.of_nat (List.length buffer) < size_t_modulus)%N ->
  (N.to_nat n * N.to_nat w <= List.length buffer)%nat ->
  (8 <= List.length literal)%nat ->
  (N.to_nat n <= List.length out)%nat ->
  VectorizedEqual this w buffer n literal out
  = Some (map (element_equals w buffer
                 {| _value := combine_bytes host_order (take 8 literal) |})
              (seq 0 (N.to_nat n))
          ++ drop (N.to_nat n) out).
Proof.
  intros Hw Hsize Hbuf Hlit Hout. unfold VectorizedEqual.
  rewrite UnMarshall_Some by exact Hlit.
  change 0%N with (N.of_nat 0).
  rewrite VectorizedEqual_loop_spec by (simpl; assumption).
  reflexivity.
Qed.

Lemma slice_take_8 (w : N) (buffer : list byte) (i : nat) :
  (8 <= w)%N ->
  take 8 (slice w buffer i) = take 8 (drop (i * N.to_nat w) buffer).
Proof.
  intros Hw. unfold slice. rewrite take_take. f_equal. lia.
Qed.

Lemma slice_length (w : N) (buffer : list byte) (i n : nat) :
  (n * N.to_nat w <= List.length buffer)%nat -> (i < n)%nat ->
  List.length (slice w buffer i) = N.to_nat w.
Proof.
  intros Hbuf Hi. unfold slice. rewrite length_take, length_drop. nia.
Qed.

(** C1, as the code has it.  For every element width [w] of at least 8
    bytes, every buffer holding [n] elements of width [w] and every
    literal of width [w], the default VectorizedEqual, given an array of
    [n] slots, returns an array of length [n] (empty when [n] is 0)
    whose position [i] holds what Equal answers for the instance decoded
    from bytes [[i*w, (i+1)*w)] against the decoded literal: true
    exactly when the two decoded values are equal. *)
Theorem VectorizedEqual_correct this (w n : N) (buffer literal : list byte) out :
  (8 <= w)%N ->
  N.of_nat (List.length buffer) = (n * w)%N ->
  (n * w < size_t_modulus)%N ->
  N.of_nat (List.length literal) = w ->
  List.length out = N.to_nat n ->
  exists (lit : GiftedIntegerType) (result : list bool),
    UnMarshall (Clone this) literal w = Some lit /\
    VectorizedEqual this w buffer n literal out = Some result /\
    List.length result = N.to_nat n /\
    (n = 0%N -> result = []) /\
    forall i : nat, (i < N.to_nat n)%nat ->
      exists elem : GiftedIntegerType,
        UnMarshall (Clone this) (slice w buffer i) w = Some elem /\
        (forall slot : bool,
           result !! i = Some (Equal elem (as_base lit) slot)) /\
        (result !! i = Some true <-> _value elem = _value lit).
Proof.
  intros Hw Hbuf Hsize Hlit Hout.
  assert (Hbuf' : (N.to_nat n * N.to_nat w <= List.length buffer)%nat) by lia.
  exists {| _value := combine_bytes host_order (take 8 literal) |}.
  eexists. split; [apply UnMarshall_Some; lia|].
  split; [apply VectorizedEqual_spec; lia|].
  rewrite drop_ge, app_nil_r by lia.
  split; [rewrite length_map, length_seq; reflexivity|].
  split; [intros ->; reflexivity|].
  intros i Hi.
  exists {| _value := combine_bytes host_order (take 8 (slice w buffer i)) |}.
  split.
  { apply UnMarshall_Some. rewrite (slice_length w buffer i (N.to_nat n)); lia. }
  assert (Hlook : map (element_equals w buffer
                   {| _value := combine_bytes host_order (take 8 literal) |})
                (seq 0 (N.to_nat n)) !! i
           = Some (combine_bytes host_order (take 8 (slice w buffer i))
                   =? combine_bytes host_order (take 8 literal))).
  { rewrite list_lookup_fmap, lookup_seq_lt by exact Hi.
    simpl. unfold element_equals. rewrite slice_take_8 by exact Hw.
    reflexivity. }
  split.
  - intros slot. rewrite Hlook. reflexivity.
  - rewrite Hlook. simpl. split.
    + intros [= Heq]. apply Z.eqb_eq. exact Heq.
    + intros Heq. f_equal. apply Z.eqb_eq. exact Heq.
Qed.

(** C6.  Over the 1024 stored elements [i] (odd [i]) and [2 * i] (even
    [i]) and the stored literal 13, VectorizedEqual with the variant's
    own width fills the caller's 1024 slots with true at index 13 and
    false at every other index. *)
Theorem scenario_B this out :
  List.length out = 1024%nat ->
  exists result : list bool,
    VectorizedEqual this (getLength this)
      (array_bytes (map onDiskB (seq 0 1024))) 1024 (object_bytes 13) out
    = Some result /\
    List.length result = 1024%nat /\
    forall i : nat, (i < 1024)%nat -> result !! i = Some (bool_decide (i = 13%nat)).
Proof.
  intros Hout.
  exists (map (fun i : nat => bool_decide (i = 13%nat)) (seq 0 1024)).
  split.
  - rewrite VectorizedEqual_spec.
    + rewrite drop_ge, app_nil_r by (rewrite Hout; reflexivity).
      f_equal. destruct host; vm_compute; reflexivity.
    + reflexivity.
    + rewrite array_bytes_length, length_map, length_seq. reflexivity.
    + rewrite array_bytes_length, length_map, length_seq. reflexivity.
    + rewrite object_bytes_length. reflexivity.
    + rewrite Hout. reflexivity.
  - split; [rewrite length_map, length_seq; reflexivity|].
    intros i Hi. rewrite list_lookup_fmap, lookup_seq_lt by exact Hi.
    reflexivity.
Qed.

(** The driver itself passes [_onDiskA], whose element [i] is [i], and
    a literal pointer whose target has been doubled to 26 by then: its
    run reports index 26. *)
Remark main_VectorizedEqual this out :
  List.length out = 1024%nat ->
  VectorizedEqual this (getLength this)
    (array_bytes (map onDiskA (seq 0 1024))) 1024 (object_bytes (13 * 2)) out
  = Some (map (fun i : nat => bool_decide (i = 26%nat)) (seq 0 1024)).
Proof.
  intros Hout. rewrite VectorizedEqual_spec.
  - rewrite drop_ge, app_nil_r by (rewrite Hout; reflexivity).
    f_equal. destruct host; vm_compute; reflexivity.
  - reflexivity.
  - rewrite array_bytes_length, length_map, length_seq. reflexivity.
  - rewrite array_bytes_length, length_map, length_seq. reflexivity.
  - rewrite object_bytes_length. reflexivity.
  - rewrite Hout. reflexivity.
Qed.
End Vectorized.

(** ** Further properties of decoding *)

Lemma byte_val_inj (b1 b2 : byte) : byte_val b1 = byte_val b2 -> b1 = b2.
Proof.
  unfold byte_val. intros Heq%N2Z.inj.
  pose proof (Byte.of_to_N b1) as H1. rewrite Heq, Byte.of_to_N in H1.
  congruence.
Qed.

Lemma unsigned_lsb_first_inj (l1 l2 : list byte) :
  List.length l1 = List.length l2 ->
  unsigned_lsb_first l1 = unsigned_lsb_first l2 -> l1 = l2.
Proof.
  revert l2. induction l1 as [|b1 l1 IH]; intros [|b2 l2] Hlen Heq;
    try discriminate; [reflexivity|].
  cbn [unsigned_lsb_first] in Heq.
  pose proof (byte_val_range b1). pose proof (byte_val_range b2).
  assert (Hb : byte_val b1 = byte_val b2) by lia.
  f_equal; [apply byte_val_inj, Hb|].
  apply IH; [simpl in Hlen; lia|lia].
Qed.

Lemma combine_bytes_inj (order : ByteOrder) (l1 l2 : list byte) :
  List.length l1 = List.length l2 ->
  combine_bytes order l1 = combine_bytes order l2 -> l1 = l2.
Proof.
  intros Hlen. rewrite !combine_bytes_unsigned_value.
  destruct order; simpl; intros Heq.
  - apply unsigned_lsb_first_inj; assumption.
  - apply unsigned_lsb_first_inj in Heq; [|rewrite !length_rev; exact Hlen].
    rewrite <- (rev_involutive l1), <- (rev_involutive l2). f_equal. exact Heq.
Qed.

Section Decoding.
Context {host : Host}.

(** X1.  Decoding the eight bytes the host stores a 64-bit integer in,
    whatever follows them and whatever length is given, yields the
    integer modulo 2^64: an unsigned one comes back as it is, a negative
    one as its two's-complement reading. *)
Theorem UnMarshall_object_bytes (this : GiftedIntegerType) (v : Z)
    (rest : list byte) (length : N) :
  UnMarshall this (object_bytes v ++ rest) length
  = Some {| _value := v mod 2 ^ 64 |}.
Proof.
  cbn [UnMarshall GiftedIntegerType_GiftedBaseType].
  unfold GiftedIntegerType_UnMarshall. rewrite load_object_bytes. reflexivity.
Qed.

(** X2.  UnMarshall has a result exactly when eight bytes are readable at
    the payload pointer; the length it is given plays no part. *)
Theorem UnMarshall_defined_iff (this : GiftedIntegerType)
    (payload : list byte) (length : N) :
  is_Some (UnMarshall this payload length) <-> (8 <= List.length payload)%nat.
Proof.
  split.
  - intros [x Hx]. destruct (le_lt_dec 8 (List.length payload)) as [Hle|Hlt];
      [exact Hle|].
    rewrite UnMarshall_None in Hx by exact Hlt. discriminate.
  - intros Hle. rewrite UnMarshall_Some by exact Hle. eauto.
Qed.

(** X3.  Decoding loses nothing of the first eight bytes: two readable
    payloads decode to the same instance exactly when their first eight
    bytes are the same. *)
Theorem UnMarshall_eq_iff (this this' : GiftedIntegerType)
    (p1 p2 : list byte) (length1 length2 : N) :
  (8 <= List.length p1)%nat -> (8 <= List.length p2)%nat ->
  UnMarshall this p1 length1 = UnMarshall this' p2 length2
  <-> take 8 p1 = take 8 p2.
Proof.
  intros H1 H2. rewrite !UnMarshall_Some by assumption. split.
  - intros [= Heq]. apply (combine_bytes_inj host_order); [|exact Heq].
    rewrite !length_take. lia.
  - intros ->. reflexivity.
Qed.
End Decoding.

(** ** Further properties of the order and of the arithmetic *)

Lemma uint64_wrap_small (z : Z) : is_uint64 z -> uint64_wrap z = z.
Proof. intros Hz. apply Z.mod_small, Hz. Qed.

Lemma uint64_wrap_int64 (s : Z) :
  is_int64 s -> uint64_wrap s = if s <? 0 then s + 2 ^ 64 else s.
Proof.
  unfold is_int64, uint64_wrap, uint64_modulus. intros Hs.
  destruct (Z.ltb_spec s 0) as [Hneg|Hpos].
  - rewrite <- (Z_mod_plus_full s 1 (2 ^ 64)). rewrite Z.mul_1_l.
    apply Z.mod_small. lia.
  - apply Z.mod_small. lia.
Qed.

Lemma GiftedIntegerType_eq (a b : GiftedIntegerType) :
  _value a = _value b -> a = b.
Proof. destruct a, b. simpl. congruence. Qed.

(** Case analysis on every comparison of integers in the goal. *)
Ltac case_comparisons :=
  repeat match goal with
    | |- context [(?x <? ?y)] => destruct (Z.ltb_spec x y)
    | |- context [(?x =? ?y)] => destruct (Z.eqb_spec x y)
    end;
  try reflexivity; try lia.

Section Order.
Context {host : Host}.

(** X4.  Of LessThan, Equal and GreaterThan on two integer instances
    exactly one answers true, whatever the output parameters held. *)
Theorem comparison_trichotomy (a b : GiftedIntegerType) (r0 r1 r2 : bool) :
  (LessThan a (as_base b) r0 = true /\ Equal a (as_base b) r1 = false
   /\ GreaterThan a (as_base b) r2 = false) \/
  (LessThan a (as_base b) r0 = false /\ Equal a (as_base b) r1 = true
   /\ GreaterThan a (as_base b) r2 = false) \/
  (LessThan a (as_base b) r0 = false /\ Equal a (as_base b) r1 = false
   /\ GreaterThan a (as_base b) r2 = true).
Proof.
  cbn [as_base GiftedIntegerType_GiftedBaseType].
  rewrite GreaterThan_Integer, LessThan_Integer, Equal_Integer.
  destruct (Z.lt_trichotomy (_value a) (_value b)) as [Hlt|[Heq|Hgt]].
  - left. rewrite (proj2 (Z.ltb_lt _ _) Hlt).
    repeat split; [apply Z.eqb_neq|apply Z.ltb_ge]; lia.
  - right; left. rewrite (proj2 (Z.eqb_eq _ _) Heq).
    repeat split; apply Z.ltb_ge; lia.
  - right; right. rewrite (proj2 (Z.ltb_lt _ _) Hgt).
    repeat split; [apply Z.ltb_ge|apply Z.eqb_neq]; lia.
Qed.

(** X5.  Swapping receiver and operand turns GreaterThan into LessThan and
    GreaterThanOrEqual into LessThanOrEqual, and leaves NotEqual as it
    is. *)
Theorem comparators_swap_operands (a b : GiftedIntegerType) (r0 r1 : bool) :
  GreaterThan a (as_base b) r0 = LessThan b (as_base a) r1 /\
  GreaterThanOrEqual a (as_base b) r0 = LessThanOrEqual b (as_base a) r1 /\
  NotEqual a (as_base b) r0 = NotEqual b (as_base a) r1.
Proof.
  cbn [as_base GiftedIntegerType_GiftedBaseType].
  rewrite GreaterThan_Integer, GreaterThanOrEqual_Integer, !NotEqual_Integer,
    LessThan_Integer, LessThanOrEqual_Integer.
  repeat split. f_equal. apply Z.eqb_sym.
Qed.

(** X6.  Equal answers true exactly when the two instances are in the
    same state, and LessThanOrEqual is antisymmetric: two instances each
    below or equal to the other are in the same state. *)
Theorem Equal_iff_same_state (a b : GiftedIntegerType) (r0 r1 r2 : bool) :
  (Equal a (as_base b) r0 = true <-> a = b) /\
  (LessThanOrEqual a (as_base b) r1 = true ->
   LessThanOrEqual b (as_base a) r2 = true -> a = b).
Proof.
  cbn [as_base GiftedIntegerType_GiftedBaseType].
  rewrite Equal_Integer, !LessThanOrEqual_Integer. split.
  - rewrite Z.eqb_eq. split; [apply GiftedIntegerType_eq|intros ->; reflexivity].
  - rewrite !Z.leb_le. intros H1 H2. apply GiftedIntegerType_eq. lia.
Qed.

(** X7.  AddToLeft is associative, and commutative in the value it
    leaves; adding a default-constructed instance to an instance that
    holds a [std::uint64_t] changes nothing. *)
Theorem AddToLeft_assoc_comm_neutral (a b c : GiftedIntegerType) :
  is_uint64 (_value a) ->
  AddToLeft (AddToLeft a (as_base b)) (as_base c)
  = AddToLeft a (as_base (AddToLeft b (as_base c))) /\
  AddToLeft a (as_base b) = AddToLeft b (as_base a) /\
  AddToLeft a (as_base (Clone c)) = a.
Proof.
  intros Ha. cbn [as_base GiftedIntegerType_GiftedBaseType].
  rewrite !AddToLeft_Integer. cbn [_value].
  split; [|split].
  - f_equal. unfold uint64_wrap.
    rewrite Zplus_mod_idemp_l, Zplus_mod_idemp_r. f_equal. lia.
  - f_equal. f_equal. lia.
  - apply GiftedIntegerType_eq. cbn [_value Clone GiftedIntegerType_Clone
      GiftedIntegerType_new]. rewrite Z.add_0_r. apply uint64_wrap_small, Ha.
Qed.

(** X8.  After AddToLeft on two instances that hold [std::uint64_t]
    values, the receiver is LessThan its old state exactly when the sum
    did not fit in 64 bits. *)
Theorem AddToLeft_overflow_iff_LessThan (a b : GiftedIntegerType) (r : bool) :
  is_uint64 (_value a) -> is_uint64 (_value b) ->
  LessThan (AddToLeft a (as_base b)) (as_base a) r = true
  <-> 2 ^ 64 <= _value a + _value b.
Proof.
  unfold is_uint64, uint64_modulus. intros Ha Hb.
  cbn [as_base GiftedIntegerType_GiftedBaseType].
  rewrite AddToLeft_Integer, LessThan_Integer. cbn [_value].
  unfold uint64_wrap, uint64_modulus. rewrite Z.ltb_lt.
  destruct (Z_lt_le_dec (_value a + _value b) (2 ^ 64)) as [Hfit|Hover].
  - rewrite Z.mod_small by lia. lia.
  - rewrite <- (Z_mod_plus_full _ (-1) (2 ^ 64)).
    rewrite Z.mod_small by lia. lia.
Qed.

(** X9.  Increment is AddToLeft of an instance holding 1; on an instance
    that holds a [std::uint64_t], [n] increments add [n] modulo 2^64, so
    that one increment takes 2^64 - 1 to 0. *)
Theorem Increment_adds_one (this : GiftedIntegerType) (n : nat) :
  is_uint64 (_value this) ->
  Increment this = AddToLeft this (IntegerObject {| _value := 1 |}) /\
  _value (Nat.iter n Increment this) = (_value this + Z.of_nat n) mod 2 ^ 64 /\
  (_value this = 2 ^ 64 - 1 -> _value (Increment this) = 0).
Proof.
  intros Hthis. split; [reflexivity|]. split.
  - induction n as [|n IH].
    + simpl. rewrite Z.add_0_r. symmetry. apply Z.mod_small, Hthis.
    + rewrite Nat.iter_succ. unfold Increment at 1. cbn [_value].
      rewrite IH. unfold uint64_wrap, uint64_modulus.
      rewrite Zplus_mod_idemp_l. f_equal. lia.
  - intros Hmax. unfold Increment. cbn [_value]. rewrite Hmax. reflexivity.
Qed.

(** X10.  Instances decoded from stored [std::int64_t] values [s] and
    [t]: Equal answers whether [s = t]; LessThan answers [s < t] when
    both have the same sign and [t < s] when the signs differ, a negative
    value ranking above every non-negative one. *)
Theorem comparisons_of_signed_values (X0 Y0 : GiftedIntegerType) (s t : Z)
    (r : bool) :
  is_int64 s -> is_int64 t ->
  exists X Y : GiftedIntegerType,
    UnMarshall X0 (object_bytes s) 8 = Some X /\
    UnMarshall Y0 (object_bytes t) 8 = Some Y /\
    Equal X (as_base Y) r = (s =? t) /\
    LessThan X (as_base Y) r
    = (if Bool.eqb (s <? 0) (t <? 0) then s <? t else t <? s).
Proof.
  intros Hs Ht.
  exists {| _value := uint64_wrap s |}, {| _value := uint64_wrap t |}.
  rewrite <- (app_nil_r (object_bytes s)), <- (app_nil_r (object_bytes t)).
  rewrite !UnMarshall_object_bytes.
  split; [reflexivity|]. split; [reflexivity|].
  cbn [as_base GiftedIntegerType_GiftedBaseType].
  rewrite Equal_Integer, LessThan_Integer. cbn [_value].
  rewrite !uint64_wrap_int64 by assumption.
  unfold is_int64 in Hs, Ht.
  destruct (Z.ltb_spec s 0), (Z.ltb_spec t 0); cbn [Bool.eqb];
    split; case_comparisons.
Qed.

(** X11.  AddToLeft does not care about the sign either: adding the
    instances decoded from the stored integers [s] and [t] gives the
    instance decoded from the stored [s + t]. *)
Theorem AddToLeft_of_stored_values (X0 Y0 Z0 : GiftedIntegerType) (s t : Z) :
  exists X Y : GiftedIntegerType,
    UnMarshall X0 (object_bytes s) 8 = Some X /\
    UnMarshall Y0 (object_bytes t) 8 = Some Y /\
    UnMarshall Z0 (object_bytes (s + t)) 8 = Some (AddToLeft X (as_base Y)).
Proof.
  exists {| _value := uint64_wrap s |}, {| _value := uint64_wrap t |}.
  rewrite <- (app_nil_r (object_bytes s)), <- (app_nil_r (object_bytes t)),
    <- (app_nil_r (object_bytes (s + t))).
  rewrite !UnMarshall_object_bytes.
  split; [reflexivity|]. split; [reflexivity|].
  cbn [as_base GiftedIntegerType_GiftedBaseType].
  rewrite AddToLeft_Integer. cbn [_value]. unfold uint64_wrap, uint64_modulus.
  rewrite <- Zplus_mod. reflexivity.
Qed.
End Order.

(** ** Further properties of VectorizedEqual *)

Section VectorizedBounds.
Context {host : Host}.

(** What a run of the loop that returns has done. *)
Lemma VectorizedEqual_loop_inv (steps i : nat) (w : N) (buffer : list byte)
    (caller literal : GiftedIntegerType) (out result : list bool) :
  (i <= List.length out)%nat ->
  VectorizedEqual_loop steps (N.of_nat i) w buffer caller literal out
  = Some result ->
  List.length result = List.length out /\
  (i + steps <= List.length out)%nat /\
  (forall j : nat, (j < i)%nat \/ (i + steps <= j)%nat ->
     result !! j = out !! j) /\
  (forall j : nat, (i <= j < i + steps)%nat ->
     (element_offset w j + 8 <= List.length buffer)%nat /\
     result !! j
     = Some (combine_bytes host_order
               (take 8 (drop (element_offset w j) buffer))
             =? _value literal)).
Proof.
  revert i caller out. induction steps as [|steps IH]; intros i caller out Hi0.
  - simpl. intros [= <-]. split; [reflexivity|]. split; [lia|].
    split; [reflexivity|]. intros j Hj. lia.
  - rewrite VectorizedEqual_loop_S. fold (element_offset w i).
    destruct (le_lt_dec 8 (List.length (drop (element_offset w i) buffer)))
      as [Hread|Hshort];
      [|rewrite UnMarshall_None by exact Hshort; discriminate].
    rewrite UnMarshall_Some by exact Hread. rewrite Nat2N.id.
    destruct (out !! i) as [slot|] eqn:Hslot; [|discriminate].
    replace (N.of_nat i + 1)%N with (N.of_nat (S i)) by lia.
    apply lookup_lt_Some in Hslot as Hi.
    intros (Hlen & Hbound & Hframe & Hin)%IH; [|rewrite length_insert; lia].
    rewrite length_insert in Hlen, Hbound.
    rewrite length_drop in Hread.
    split; [exact Hlen|]. split; [lia|]. split.
    + intros j Hj. rewrite Hframe by lia. apply list_lookup_insert_ne. lia.
    + intros j Hj. destruct (decide (j = i)) as [->|Hne].
      * split; [lia|]. rewrite Hframe by lia.
        rewrite list_lookup_insert_eq by exact Hi. reflexivity.
      * apply Hin. lia.
Qed.

(** The loop returns when the slots and the bytes it touches exist. *)
Lemma VectorizedEqual_loop_is_Some (steps i : nat) (w : N) (buffer : list byte)
    (caller literal : GiftedIntegerType) (out : list bool) :
  (i + steps <= List.length out)%nat ->
  (forall j : nat, (i <= j < i + steps)%nat ->
     (element_offset w j + 8 <= List.length buffer)%nat) ->
  is_Some (VectorizedEqual_loop steps (N.of_nat i) w buffer caller literal out).
Proof.
  revert i caller out. induction steps as [|steps IH];
    intros i caller out Hout Hbuf.
  - simpl. eauto.
  - rewrite VectorizedEqual_loop_S. fold (element_offset w i).
    pose proof (Hbuf i ltac:(lia)) as Hi.
    rewrite UnMarshall_Some by (rewrite length_drop; lia).
    rewrite Nat2N.id.
    destruct (lookup_lt_is_Some_2 out i ltac:(lia)) as [slot ->].
    replace (N.of_nat i + 1)%N with (N.of_nat (S i)) by lia.
    apply IH; [rewrite length_insert; lia|].
    intros j Hj. apply Hbuf. lia.
Qed.

(** X12.  VectorizedEqual has a result exactly when eight bytes are
    readable at the literal, the caller's array has a slot for each of
    the [vectorLength] elements, and eight bytes are readable at the
    offset of each element. *)
Theorem VectorizedEqual_defined_iff (this : GiftedIntegerType) (w n : N)
    (buffer literal : list byte) (out : list bool) :
  is_Some (VectorizedEqual this w buffer n literal out) <->
  (8 <= List.length literal)%nat /\
  (N.to_nat n <= List.length out)%nat /\
  forall j : nat, (j < N.to_nat n)%nat ->
    (element_offset w j + 8 <= List.length buffer)%nat.
Proof.
  unfold VectorizedEqual. change 0%N with (N.of_nat 0). split.
  - intros [result Hres].
    destruct (le_lt_dec 8 (List.length literal)) as [Hlit|Hlit];
      [|rewrite UnMarshall_None in Hres by exact Hlit; discriminate].
    rewrite UnMarshall_Some in Hres by exact Hlit.
    apply VectorizedEqual_loop_inv in Hres as (_ & Hbound & _ & Hin);
      [|simpl; lia].
    split; [exact Hlit|]. split; [exact Hbound|].
    intros j Hj. apply Hin. lia.
  - intros (Hlit & Hout & Hbuf). rewrite UnMarshall_Some by exact Hlit.
    apply VectorizedEqual_loop_is_Some; [exact Hout|].
    intros j Hj. apply Hbuf. lia.
Qed.

(** X13.  With no element to compare, VectorizedEqual still decodes the
    literal: it returns the caller's array as it was when eight bytes
    are readable there, and has no result otherwise. *)
Theorem VectorizedEqual_empty_vector (this : GiftedIntegerType) (w : N)
    (buffer literal : list byte) (out : list bool) :
  VectorizedEqual this w buffer 0 literal out
  = if decide (8 <= List.length literal)%nat then Some out else None.
Proof.
  unfold VectorizedEqual. destruct (decide (8 <= List.length literal)%nat).
  - rewrite UnMarshall_Some by assumption. reflexivity.
  - rewrite UnMarshall_None by lia. reflexivity.
Qed.

(** X14.  A call that returns hands back an array as long as the
    caller's, has written the first [vectorLength] slots only, and has
    not looked at what they held: another array of that length gets the
    same first [vectorLength] slots. *)
Theorem VectorizedEqual_writes_only_its_slots (this : GiftedIntegerType)
    (w n : N) (buffer literal : list byte) (out out' result : list bool) :
  VectorizedEqual this w buffer n literal out = Some result ->
  List.length out' = List.length out ->
  List.length result = List.length out /\
  (forall j : nat, (N.to_nat n <= j)%nat -> result !! j = out !! j) /\
  exists result' : list bool,
    VectorizedEqual this w buffer n literal out' = Some result' /\
    take (N.to_nat n) result' = take (N.to_nat n) result.
Proof.
  intros Hres Hout'.
  assert (Hdef : is_Some (VectorizedEqual this w buffer n literal out')).
  { apply VectorizedEqual_defined_iff. rewrite Hout'.
    apply (VectorizedEqual_defined_iff this). eauto. }
  destruct Hdef as [result' Hres']. pose proof Hres' as Hcall'.
  unfold VectorizedEqual in Hres, Hres'.
  destruct (UnMarshall (Clone this) literal w) as [lit|]; [|discriminate].
  change 0%N with (N.of_nat 0) in Hres, Hres'.
  apply VectorizedEqual_loop_inv in Hres as (Hlen & Hbound & Hframe & Hin);
    [|simpl; lia].
  apply VectorizedEqual_loop_inv in Hres' as (Hlen' & _ & _ & Hin');
    [|simpl; lia].
  split; [exact Hlen|]. split; [intros j Hj; apply Hframe; lia|].
  exists result'. split; [exact Hcall'|].
  apply list_eq. intros j. destruct (decide (j < N.to_nat n)%nat) as [Hj|Hj].
  - rewrite !lookup_take_lt by exact Hj.
    rewrite (proj2 (Hin j ltac:(lia))), (proj2 (Hin' j ltac:(lia))).
    reflexivity.
  - rewrite !lookup_take_ge by lia. reflexivity.
Qed.

(** X15.  In a call that returns, slot [j] is true exactly when the eight
    bytes at the offset of element [j] are the eight bytes at the
    literal, byte for byte. *)
Theorem VectorizedEqual_compares_bytes (this : GiftedIntegerType) (w n : N)
    (buffer literal : list byte) (out result : list bool) (j : nat) :
  VectorizedEqual this w buffer n literal out = Some result ->
  (j < N.to_nat n)%nat ->
  result !! j
  = Some (bool_decide (take 8 (drop (element_offset w j) buffer)
                       = take 8 literal)).
Proof.
  intros Hres Hj.
  assert (Hdef : is_Some (VectorizedEqual this w buffer n literal out)) by eauto.
  apply VectorizedEqual_defined_iff in Hdef as (Hlit & _ & Hbuf).
  unfold VectorizedEqual in Hres. rewrite UnMarshall_Some in Hres by exact Hlit.
  change 0%N with (N.of_nat 0) in Hres.
  apply VectorizedEqual_loop_inv in Hres as (_ & _ & _ & Hin); [|simpl; lia].
  destruct (Hin j ltac:(lia)) as [Hoff ->]. f_equal. cbn [_value].
  apply eq_true_iff_eq. rewrite Z.eqb_eq, bool_decide_eq_true. split.
  - apply combine_bytes_inj. rewrite !length_take, length_drop. lia.
  - intros ->. reflexivity.
Qed.

(** X16.  Over any list of 64-bit integers as the host stores them and
    any stored literal, VectorizedEqual with the variant's own width marks
    exactly the positions whose element is the literal modulo 2^64. *)
Theorem VectorizedEqual_stored_array (this : GiftedIntegerType) (vs : list Z)
    (v : Z) (out : list bool) :
  (N.of_nat (8 * List.length vs) < size_t_modulus)%N ->
  List.length out = List.length vs ->
  VectorizedEqual this (getLength this) (array_bytes vs)
    (N.of_nat (List.length vs)) (object_bytes v) out
  = Some (map (fun e : Z => e mod 2 ^ 64 =? v mod 2 ^ 64) vs).
Proof.
  intros Hsize Hout.
  change (getLength this) with 8%N.
  rewrite VectorizedEqual_spec;
    rewrite ?array_bytes_length, ?object_bytes_length, ?Nat2N.id; try lia.
  rewrite drop_ge, app_nil_r by lia. f_equal.
  apply list_eq. intros j. rewrite !list_lookup_fmap.
  destruct (vs !! j) as [e|] eqn:He.
  - rewrite lookup_seq_lt by (apply lookup_lt_Some in He; exact He).
    cbn [fmap option_fmap option_map Nat.add]. f_equal.
    unfold element_equals. cbn [_value].
    pose proof (load_array_bytes vs j e He) as Hload.
    pose proof (load_object_bytes v []) as Hlit. rewrite app_nil_r in Hlit.
    change (N.to_nat 8) with 8%nat. rewrite (Nat.mul_comm j 8).
    rewrite load_uint64_Some in Hload.
    + rewrite load_uint64_Some in Hlit by (rewrite object_bytes_length; lia).
      apply (inj Some) in Hload. apply (inj Some) in Hlit.
      rewrite Hload, Hlit. reflexivity.
    + destruct (le_lt_dec 8
        (List.length (drop (8 * j) (array_bytes vs)))) as [H8|H8];
        [exact H8|].
      rewrite load_uint64_None in Hload by exact H8. discriminate.
  - rewrite lookup_seq_ge by (apply lookup_ge_None in He; exact He).
    reflexivity.
Qed.
End VectorizedBounds.

(** ** Further properties of the objects behind pointers *)


Section Objects.
Context {host : Host}.


(** X18.  Two Clone calls in a row return two different addresses, both
    different from every object that was live before, and leave those
    objects as they were. *)
Theorem Clone_twice_distinct (st st1 st2 : gmap positive GiftedObject)
    (this l1 l2 : positive) :
  call_Clone st this = Some (l1, st1) ->
  call_Clone st1 this = Some (l2, st2) ->
  l1 <> l2 /\
  forall l : positive, is_Some (st !! l) ->
    l <> l1 /\ l <> l2 /\ st2 !! l = st !! l.
Proof.
  unfold call_Clone.
  destruct (st !! this) as [[x|]|]; try discriminate.
  intros Hcall1. simplify_eq.
  destruct (<[fresh (dom st) := IntegerObject (Clone x)]> st !! this)
    as [[x'|]|]; try discriminate.
  intros Hcall2. simplify_eq.
  pose proof (is_fresh (dom st)) as H1.
  pose proof (is_fresh
    (dom (<[fresh (dom st) := IntegerObject (Clone x)]> st))) as H2.
  rewrite dom_insert_L in *.
  apply not_elem_of_union in H2 as [H2 H3].
  apply not_elem_of_singleton in H2.
  split; [congruence|].
  intros l Hl%elem_of_dom.
  assert (l <> fresh (dom st)) by congruence.
  assert (l <> fresh ({[fresh (dom st)]} ∪ dom st)) by congruence.
  split; [assumption|]. split; [assumption|].
  rewrite !lookup_insert_ne by congruence. reflexivity.
Qed.

(** The loop on objects behind pointers does what the loop on values
    does, and changes the scratch instance at [c] only. *)
Lemma call_VectorizedEqual_loop_refines (steps : nat) (i w : N)
    (buffer : list byte) (st : gmap positive GiftedObject) (c l : positive)
    (cv lv : GiftedIntegerType) (out : list bool) :
  c <> l ->
  st !! c = Some (IntegerObject cv) ->
  st !! l = Some (IntegerObject lv) ->
  match VectorizedEqual_loop steps i w buffer cv lv out with
  | Some result =>
      exists cv' : GiftedIntegerType,
        call_VectorizedEqual_loop steps i w buffer st c l out
        = Some (<[c := IntegerObject cv']> st, result)
  | None => call_VectorizedEqual_loop steps i w buffer st c l out = None
  end.
Proof.
  intros Hcl. revert i st cv out.
  induction steps as [|steps IH]; intros i st cv out Hc Hl.
  - simpl. exists cv. rewrite insert_id by exact Hc. reflexivity.
  - rewrite VectorizedEqual_loop_S. cbn [call_VectorizedEqual_loop].
    unfold call_UnMarshall. rewrite Hc.
    destruct (UnMarshall cv (drop (N.to_nat (size_t_wrap (i * w))) buffer) w)
      as [cv1|]; [|reflexivity].
    cbn [mbind option_bind].
    destruct (out !! N.to_nat i) as [slot|]; [|reflexivity].
    cbn [mbind option_bind]. unfold call_comparison.
    rewrite lookup_insert_eq, lookup_insert_ne, Hl by exact Hcl.
    cbn [mbind option_bind].
    specialize (IH (i + 1)%N (<[c := IntegerObject cv1]> st) cv1
                  (<[N.to_nat i := Equal cv1 (IntegerObject lv) slot]> out)).
    rewrite lookup_insert_eq, lookup_insert_ne in IH by exact Hcl.
    specialize (IH eq_refl Hl).
    destruct (VectorizedEqual_loop steps (i + 1) w buffer cv1 lv
                (<[N.to_nat i := Equal cv1 (IntegerObject lv) slot]> out))
      as [result|]; [|exact IH].
    destruct IH as [cv' IH]. exists cv'. rewrite IH, insert_insert_eq.
    reflexivity.
Qed.

(** X19.  On objects behind pointers, VectorizedEqual called on a live
    integer instance returns what it returns on values and leaves the
    store exactly as it found it: the receiver and every other live
    object keep their state, and both scratch instances are gone. *)
Theorem call_VectorizedEqual_refines (st : gmap positive GiftedObject)
    (this : positive) (x : GiftedIntegerType) (w n : N)
    (buffer literal : list byte) (out : list bool) :
  st !! this = Some (IntegerObject x) ->
  call_VectorizedEqual st this w buffer n literal out
  = (fun result : list bool => (st, result))
      <$> VectorizedEqual x w buffer n literal out.
Proof.
  intros Hthis. unfold call_VectorizedEqual, VectorizedEqual, call_Clone.
  rewrite Hthis. cbn [mbind option_bind].
  set (c := fresh (dom st)).
  assert (Hc : st !! c = None) by apply not_elem_of_dom, is_fresh.
  assert (Hthis_c : c <> this) by congruence.
  rewrite lookup_insert_ne, Hthis by exact Hthis_c. cbn [mbind option_bind].
  set (st1 := <[c := IntegerObject (Clone x)]> st).
  set (l := fresh (dom st1)).
  assert (Hl : st1 !! l = None) by apply not_elem_of_dom, is_fresh.
  assert (Hcl : c <> l).
  { intros Heq. rewrite <- Heq in Hl. unfold st1 in Hl.
    rewrite lookup_insert_eq in Hl. discriminate. }
  assert (Hl0 : st !! l = None).
  { unfold st1 in Hl. rewrite lookup_insert_ne in Hl by exact Hcl. exact Hl. }
  unfold call_UnMarshall. rewrite lookup_insert_eq.
  destruct (UnMarshall (Clone x) literal w) as [lv|]; [|reflexivity].
  cbn [mbind option_bind].
  pose proof (call_VectorizedEqual_loop_refines (N.to_nat n) 0 w buffer
    (<[l := IntegerObject lv]> (<[l := IntegerObject (Clone x)]> st1))
    c l (Clone x) lv out Hcl) as Hloop.
  rewrite lookup_insert_eq in Hloop.
  rewrite !lookup_insert_ne in Hloop by congruence.
  unfold st1 in Hloop at 1. rewrite lookup_insert_eq in Hloop.
  specialize (Hloop eq_refl eq_refl).
  destruct (VectorizedEqual_loop (N.to_nat n) 0 w buffer (Clone x) lv out)
    as [result|]; [|rewrite Hloop; reflexivity].
  destruct Hloop as [cv' ->]. cbn [mbind option_bind fmap option_fmap option_map].
  do 2 f_equal. apply map_eq. intros k.
  destruct (decide (k = l)) as [->|Hkl].
  { rewrite lookup_delete_eq, Hl0. reflexivity. }
  rewrite lookup_delete_ne by congruence.
  destruct (decide (k = c)) as [->|Hkc].
  { rewrite lookup_delete_eq, Hc. reflexivity. }
  rewrite lookup_delete_ne by congruence.
  unfold st1. rewrite !lookup_insert_ne by congruence. reflexivity.
Qed.
End Objects.

(** ** Concrete runs on a little-endian host *)

#[local] Existing Instance x86_64.

(** Elements and literal four bytes wide.  With exactly the bytes of two
    elements and of the literal readable, decoding the literal already
    reads past its end.  With readable memory behind both, the call
    returns, but bytes 0..3 and bytes 8..11, which are identical and equal
    the literal's four bytes, get different verdicts: each verdict depends
    on the eight bytes from the element's start on. *)
Lemma VectorizedEqual_narrow_elements :
  VectorizedEqual GiftedIntegerType_new 4
    [x01; x00; x00; x00; x02; x00; x00; x00] 2
    [x01; x00; x00; x00] [false; false]
  = None /\
  let buffer := [x01; x00; x00; x00; x02; x00; x00; x00;
                 x01; x00; x00; x00; x00; x00; x00; x00] in
  let literal := [x01; x00; x00; x00; x00; x00; x00; x00] in
  slice 4 buffer 0 = take 4 literal /\
  slice 4 buffer 2 = take 4 literal /\
  VectorizedEqual GiftedIntegerType_new 4 buffer 3 literal [false; false; false]
  = Some [false; false; true].
Proof. vm_compute. repeat split. Qed.

(** Against an operand of another variant NotEqual, GreaterThan and
    GreaterThanOrEqual turn an output parameter that held false into true;
    and UnMarshall, told a length of 16, replaces the value 0 by the 13
    in the first eight bytes. *)
Lemma mismatch_changes_output_and_value :
  dyn_myType ForeignObject <> myType {| _value := 13 |} /\
  NotEqual {| _value := 13 |} ForeignObject false = true /\
  GreaterThan {| _value := 13 |} ForeignObject false = true /\
  GreaterThanOrEqual {| _value := 13 |} ForeignObject false = true /\
  16%N <> getLength {| _value := 0 |} /\
  UnMarshall {| _value := 0 |} (object_bytes 13 ++ object_bytes 26) 16
  = Some {| _value := 13 |}.
Proof. vm_compute. repeat split; discriminate. Qed.

(** [x.AddToLeft(&x)] on an instance holding 1: the right operand, which
    is the receiver, holds 2 afterwards. *)
Lemma AddToLeft_changes_aliased_right_operand :
  let st : gmap positive GiftedObject :=
    {[ 1%positive := IntegerObject {| _value := 1 |} ]} in
  st !! 1%positive = Some (IntegerObject {| _value := 1 |}) /\
  exists st' : gmap positive GiftedObject,
    call_AddToLeft st 1%positive 1%positive = Some st' /\
    st' !! 1%positive = Some (IntegerObject {| _value := 2 |}).
Proof.
  split; [reflexivity|]. eexists. split; [reflexivity|]. reflexivity.
Qed.

(** No receiver, foreign operand and entry value make LessThanOrEqual
    return anything but the entry value. *)
Lemma LessThanOrEqual_never_overwrites_on_mismatch :
  ~ exists (this : GiftedIntegerType) (right : GiftedObject) (result : bool),
      dyn_myType right <> myType this /\
      LessThanOrEqual this right result <> result.
Proof.
  intros (this & right & result & Hne & Hchanged).
  apply Hchanged, LessThanOrEqual_mismatch, Hne.
Qed.

(** *** The theorems at concrete inputs *)

Lemma derived_comparators_consistent_witness :
  let a := {| _value := 13 |} in
  let right := IntegerObject {| _value := 26 |} in
  dyn_myType right = myType a /\
  (NotEqual a right false = negb (Equal a right true) /\
   LessThanOrEqual a right false = LessThan a right true || Equal a right false /\
   GreaterThan a right false = negb (LessThanOrEqual a right true) /\
   GreaterThanOrEqual a right false = negb (LessThan a right true)).
Proof.
  split; [reflexivity|].
  apply (derived_comparators_consistent
           {| _value := 13 |} (IntegerObject {| _value := 26 |}) false true false).
  reflexivity.
Defined.

Lemma Equal_reflexive_symmetric_LessThan_transitive_witness :
  let a := {| _value := 1 |} in
  let b := {| _value := 2 |} in
  let c := {| _value := 3 |} in
  LessThan a (as_base b) false = true /\
  LessThan b (as_base c) false = true /\
  LessThan a (as_base c) false = true.
Proof.
  split; [reflexivity|]. split; [reflexivity|].
  apply (Equal_reflexive_symmetric_LessThan_transitive
           {| _value := 1 |} {| _value := 2 |} {| _value := 3 |} false false false);
    reflexivity.
Defined.

Lemma derived_comparators_on_mismatch_witness :
  let this := {| _value := 13 |} in
  dyn_myType ForeignObject <> myType this /\
  (Equal this ForeignObject false = false /\
   LessThan this ForeignObject false = false /\
   NotEqual this ForeignObject false = negb false /\
   GreaterThan this ForeignObject false = negb false /\
   GreaterThanOrEqual this ForeignObject false = negb false /\
   LessThanOrEqual this ForeignObject false = false).
Proof.
  split; [discriminate|].
  apply (derived_comparators_on_mismatch {| _value := 13 |} ForeignObject false).
  discriminate.
Defined.

Lemma mismatches_are_not_signalled_witness :
  let this := {| _value := 13 |} in
  let payload := object_bytes 7 ++ object_bytes 26 in
  dyn_myType ForeignObject <> myType this /\
  16%N <> getLength this /\
  ((Equal this ForeignObject true = true /\
    LessThan this ForeignObject true = true /\
    LessThanOrEqual this ForeignObject true = true /\
    AddToLeft this ForeignObject = this) /\
   (NotEqual this ForeignObject true = negb true /\
    GreaterThan this ForeignObject true = negb true /\
    GreaterThanOrEqual this ForeignObject true = negb true) /\
   UnMarshall this payload 16 = UnMarshall this payload (getLength this) /\
   ((8 <= List.length payload)%nat ->
    UnMarshall this payload 16
    = Some {| _value := combine_bytes host_order (take 8 payload) |})).
Proof.
  split; [discriminate|]. split; [discriminate|].
  apply (mismatches_are_not_signalled {| _value := 13 |} ForeignObject true
           (object_bytes 7 ++ object_bytes 26) 16); discriminate.
Defined.

Lemma Clone_is_a_default_factory_witness :
  let st : gmap positive GiftedObject :=
    {[ 1%positive := IntegerObject {| _value := 13 |} ]} in
  let x := {| _value := 13 |} in
  st !! 1%positive = Some (IntegerObject x) /\
  exists (l : positive) (st' : gmap positive GiftedObject),
    call_Clone st 1%positive = Some (l, st') /\
    st !! l = None /\
    st' !! l = Some (as_base (Clone x)) /\
    (forall l' : positive, l' <> l -> st' !! l' = st !! l') /\
    myType (Clone x) = myType x /\
    dyn_myType (as_base (Clone x)) = dyn_myType (as_base x) /\
    _value (Clone x) = 0 /\
    (_value (Clone x) = _value x <-> _value x = 0).
Proof.
  split; [reflexivity|].
  apply (Clone_is_a_default_factory
           {[ 1%positive := IntegerObject {| _value := 13 |} ]} 1%positive
           {| _value := 13 |}).
  reflexivity.
Defined.

Lemma getLength_and_UnMarshall_witness :
  let this := GiftedIntegerType_new in
  let payload := object_bytes 13 in
  (N.to_nat (getLength this) <= List.length payload)%nat /\
  getLength this = 8%N /\
  exists v : Z,
    UnMarshall this payload 8 = Some {| _value := v |} /\
    v = unsigned_value host_order (take (N.to_nat (getLength this)) payload) /\
    is_uint64 v.
Proof.
  split; [vm_compute; lia|].
  apply (getLength_and_UnMarshall GiftedIntegerType_new (object_bytes 13) 8).
  vm_compute; lia.
Defined.

Lemma AddToLeft_wraps_witness :
  let a := {| _value := 2 ^ 64 - 1 |} in
  let b := {| _value := 2 |} in
  let st : gmap positive GiftedObject :=
    <[ 2%positive := IntegerObject b ]> {[ 1%positive := IntegerObject a ]} in
  st !! 1%positive = Some (IntegerObject a) /\
  st !! 2%positive = Some (IntegerObject b) /\
  exists st' : gmap positive GiftedObject,
    call_AddToLeft st 1%positive 2%positive = Some st' /\
    st' !! 1%positive
    = Some (IntegerObject {| _value := (_value a + _value b) mod 2 ^ 64 |}) /\
    (1%positive <> 2%positive -> st' !! 2%positive = Some (IntegerObject b)) /\
    (forall l : positive, l <> 1%positive -> st' !! l = st !! l).
Proof.
  split; [reflexivity|]. split; [reflexivity|].
  apply (AddToLeft_wraps
           (<[ 2%positive := IntegerObject {| _value := 2 |} ]>
              {[ 1%positive := IntegerObject {| _value := 2 ^ 64 - 1 |} ]})
           1%positive 2%positive {| _value := 2 ^ 64 - 1 |} {| _value := 2 |});
    reflexivity.
Defined.

Lemma VectorizedEqual_correct_witness :
  let this := GiftedIntegerType_new in
  let buffer := array_bytes [13; 7] in
  let literal := object_bytes 13 in
  let out := [false; false] in
  (8 <= 8)%N /\
  N.of_nat (List.length buffer) = (2 * 8)%N /\
  (2 * 8 < size_t_modulus)%N /\
  N.of_nat (List.length literal) = 8%N /\
  List.length out = N.to_nat 2 /\
  exists (lit : GiftedIntegerType) (result : list bool),
    UnMarshall (Clone this) literal 8 = Some lit /\
    VectorizedEqual this 8 buffer 2 literal out = Some result /\
    List.length result = N.to_nat 2 /\
    (2%N = 0%N -> result = []) /\
    forall i : nat, (i < N.to_nat 2)%nat ->
      exists elem : GiftedIntegerType,
        UnMarshall (Clone this) (slice 8 buffer i) 8 = Some elem /\
        (forall slot : bool,
           result !! i = Some (Equal elem (as_base lit) slot)) /\
        (result !! i = Some true <-> _value elem = _value lit).
Proof.
  split; [vm_compute; discriminate|]. split; [reflexivity|].
  split; [reflexivity|]. split; [reflexivity|]. split; [reflexivity|].
  apply (VectorizedEqual_correct GiftedIntegerType_new 8 2
           (array_bytes [13; 7]) (object_bytes 13) [false; false]);
    first [reflexivity | vm_compute; discriminate].
Defined.

Lemma scenario_B_witness :
  let this := GiftedIntegerType_new in
  let out := replicate 1024 false in
  List.length out = 1024%nat /\
  exists result : list bool,
    VectorizedEqual this (getLength this)
      (array_bytes (map onDiskB (seq 0 1024))) 1024 (object_bytes 13) out
    = Some result /\
    List.length result = 1024%nat /\
    forall i : nat, (i < 1024)%nat -> result !! i = Some (bool_decide (i = 13%nat)).
Proof.
  split; [reflexivity|].
  apply (scenario_B GiftedIntegerType_new (replicate 1024 false)).
  reflexivity.
Defined.

(** *** The further properties at concrete inputs *)

Lemma UnMarshall_eq_iff_witness :
  let p1 := object_bytes 13 ++ object_bytes 1 in
  let p2 := object_bytes 13 ++ object_bytes 2 in
  (8 <= List.length p1)%nat /\ (8 <= List.length p2)%nat /\
  (UnMarshall GiftedIntegerType_new p1 16 = UnMarshall {| _value := 5 |} p2 8
   <-> take 8 p1 = take 8 p2).
Proof.
  split; [vm_compute; lia|]. split; [vm_compute; lia|].
  apply (UnMarshall_eq_iff GiftedIntegerType_new {| _value := 5 |}
           (object_bytes 13 ++ object_bytes 1)
           (object_bytes 13 ++ object_bytes 2) 16 8); vm_compute; lia.
Defined.

Lemma Equal_iff_same_state_witness :
  let a := {| _value := 5 |} in
  LessThanOrEqual a (as_base a) false = true /\
  LessThanOrEqual a (as_base a) true = true /\
  a = a.
Proof.
  split; [reflexivity|]. split; [reflexivity|].
  apply (proj2 (Equal_iff_same_state {| _value := 5 |} {| _value := 5 |}
                  false false true)); reflexivity.
Defined.

Lemma AddToLeft_assoc_comm_neutral_witness :
  let a := {| _value := 2 ^ 64 - 1 |} in
  let b := {| _value := 1 |} in
  let c := {| _value := 2 |} in
  is_uint64 (_value a) /\
  AddToLeft (AddToLeft a (as_base b)) (as_base c)
  = AddToLeft a (as_base (AddToLeft b (as_base c))) /\
  AddToLeft a (as_base b) = AddToLeft b (as_base a) /\
  AddToLeft a (as_base (Clone c)) = a.
Proof.
  split; [vm_compute; split; [discriminate|reflexivity]|].
  apply (AddToLeft_assoc_comm_neutral
           {| _value := 2 ^ 64 - 1 |} {| _value := 1 |} {| _value := 2 |}).
  vm_compute; split; [discriminate|reflexivity].
Defined.

Lemma AddToLeft_overflow_iff_LessThan_witness :
  let a := {| _value := 2 ^ 64 - 1 |} in
  let b := {| _value := 1 |} in
  is_uint64 (_value a) /\ is_uint64 (_value b) /\
  (LessThan (AddToLeft a (as_base b)) (as_base a) false = true
   <-> 2 ^ 64 <= _value a + _value b).
Proof.
  split; [vm_compute; split; [discriminate|reflexivity]|].
  split; [vm_compute; split; [discriminate|reflexivity]|].
  apply (AddToLeft_overflow_iff_LessThan
           {| _value := 2 ^ 64 - 1 |} {| _value := 1 |} false);
    vm_compute; split; first [discriminate|reflexivity].
Defined.

Lemma Increment_adds_one_witness :
  let this := {| _value := 2 ^ 64 - 1 |} in
  is_uint64 (_value this) /\
  Increment this = AddToLeft this (IntegerObject {| _value := 1 |}) /\
  _value (Nat.iter 3 Increment this) = (_value this + Z.of_nat 3) mod 2 ^ 64 /\
  (_value this = 2 ^ 64 - 1 -> _value (Increment this) = 0).
Proof.
  split; [vm_compute; split; [discriminate|reflexivity]|].
  apply (Increment_adds_one {| _value := 2 ^ 64 - 1 |} 3).
  vm_compute; split; [discriminate|reflexivity].
Defined.

Lemma comparisons_of_signed_values_witness :
  is_int64 (-1) /\ is_int64 1 /\
  exists X Y : GiftedIntegerType,
    UnMarshall GiftedIntegerType_new (object_bytes (-1)) 8 = Some X /\
    UnMarshall GiftedIntegerType_new (object_bytes 1) 8 = Some Y /\
    Equal X (as_base Y) false = (-1 =? 1) /\
    LessThan X (as_base Y) false
    = (if Bool.eqb (-1 <? 0) (1 <? 0) then -1 <? 1 else 1 <? -1).
Proof.
  split; [vm_compute; split; [discriminate|reflexivity]|].
  split; [vm_compute; split; [discriminate|reflexivity]|].
  apply (comparisons_of_signed_values
           GiftedIntegerType_new GiftedIntegerType_new (-1) 1 false);
    vm_compute; split; first [discriminate|reflexivity].
Defined.

Lemma VectorizedEqual_writes_only_its_slots_witness :
  let this := GiftedIntegerType_new in
  let buffer := array_bytes [13; 7] in
  let literal := object_bytes 13 in
  let out := [false; true] in
  let out' := [true; false] in
  let result := [true; true] in
  VectorizedEqual this 8 buffer 1 literal out = Some result /\
  List.length out' = List.length out /\
  List.length result = List.length out /\
  (forall j : nat, (N.to_nat 1 <= j)%nat -> result !! j = out !! j) /\
  exists result' : list bool,
    VectorizedEqual this 8 buffer 1 literal out' = Some result' /\
    take (N.to_nat 1) result' = take (N.to_nat 1) result.
Proof.
  split; [vm_compute; reflexivity|]. split; [reflexivity|].
  apply (VectorizedEqual_writes_only_its_slots GiftedIntegerType_new 8 1
           (array_bytes [13; 7]) (object_bytes 13)
           [false; true] [true; false] [true; true]);
    vm_compute; reflexivity.
Defined.

Lemma VectorizedEqual_compares_bytes_witness :
  let this := GiftedIntegerType_new in
  let buffer := array_bytes [7; 13] in
  let literal := object_bytes 13 in
  VectorizedEqual this 8 buffer 2 literal [true; false] = Some [false; true] /\
  (1 < N.to_nat 2)%nat /\
  [false; true] !! 1%nat
  = Some (bool_decide (take 8 (drop (element_offset 8 1) buffer)
                       = take 8 literal)).
Proof.
  split; [vm_compute; reflexivity|]. split; [vm_compute; lia|].
  apply (VectorizedEqual_compares_bytes GiftedIntegerType_new 8 2
           (array_bytes [7; 13]) (object_bytes 13)
           [true; false] [false; true] 1);
    [vm_compute; reflexivity|vm_compute; lia].
Defined.

Lemma VectorizedEqual_stored_array_witness :
  let this := GiftedIntegerType_new in
  let vs := [13; -1; 13 + 2 ^ 64] in
  let out := [false; false; false] in
  (N.of_nat (8 * List.length vs) < size_t_modulus)%N /\
  List.length out = List.length vs /\
  VectorizedEqual this (getLength this) (array_bytes vs)
    (N.of_nat (List.length vs)) (object_bytes 13) out
  = Some (map (fun e : Z => e mod 2 ^ 64 =? 13 mod 2 ^ 64) vs).
Proof.
  split; [reflexivity|]. split; [reflexivity|].
  apply (VectorizedEqual_stored_array GiftedIntegerType_new
           [13; -1; 13 + 2 ^ 64] 13 [false; false; false]); reflexivity.
Defined.


Lemma Clone_twice_distinct_witness :
  let st : gmap positive GiftedObject :=
    {[ 1%positive := IntegerObject {| _value := 13 |} ]} in
  let l1 := fresh (dom st) in
  let st1 := <[ l1 := IntegerObject GiftedIntegerType_new ]> st in
  let l2 := fresh (dom st1) in
  let st2 := <[ l2 := IntegerObject GiftedIntegerType_new ]> st1 in
  call_Clone st 1%positive = Some (l1, st1) /\
  call_Clone st1 1%positive = Some (l2, st2) /\
  l1 <> l2 /\
  forall l : positive, is_Some (st !! l) ->
    l <> l1 /\ l <> l2 /\ st2 !! l = st !! l.
Proof.
  split; [reflexivity|]. split; [reflexivity|].
  eapply (Clone_twice_distinct
            {[ 1%positive := IntegerObject {| _value := 13 |} ]}
            _ _ 1%positive); reflexivity.
Defined.

Lemma call_VectorizedEqual_refines_witness :
  let st : gmap positive GiftedObject :=
    {[ 1%positive := IntegerObject {| _value := 5 |} ]} in
  let buffer := array_bytes [7; 13] in
  st !! 1%positive = Some (IntegerObject {| _value := 5 |}) /\
  call_VectorizedEqual st 1%positive 8 buffer 2 (object_bytes 13) [true; true]
  = (fun result : list bool => (st, result))
      <$> VectorizedEqual {| _value := 5 |} 8 buffer 2 (object_bytes 13)
            [true; true].
Proof.
  split; [reflexivity|].
  apply (call_VectorizedEqual_refines
           {[ 1%positive := IntegerObject {| _value := 5 |} ]} 1%positive
           {| _value := 5 |} 8 2 (array_bytes [7; 13]) (object_bytes 13)
           [true; true]).
  reflexivity.
Defined.
